(** * Git Wrapped API: the statistics handler of [src/pages/api/stats.ts]

    A shallow embedding of the request handler [GET] and of the parts of the
    JavaScript runtime it relies on (property enumeration order of ordinary
    objects, the stable [Array.prototype.sort], [Date] parsing and time
    arithmetic, number-to-string conversion, binary64 division and
    [Math.round]), followed by the properties of the handler.

    Conventions.
    - A JavaScript [number] holding an integer is a [Z]; the counts handled
      here are GraphQL [Int]s and their sums over at most a few hundred
      records, all far below 2^53, where binary64 integer arithmetic is exact.
      Only the one genuinely fractional computation of the handler (the
      "average per day" of the most active weekday) is modelled with rounding,
      over [Q].
    - [undefined], [null] and [NaN] are [None].
    - A thrown exception is the left injection of a sum. *)

From Stdlib Require Import ZArith List String Ascii Bool Lia.
From Stdlib Require Import DecimalString DecimalZ DecimalPos.
From Stdlib Require Import QArith Qround Qabs Qpower Lqa.
From Stdlib Require Import Permutation Sorted.
From Stdlib Require SpecFloat.
Import ListNotations.

Open Scope string_scope.
Open Scope Z_scope.

(* ================================================================== *)
(** * Part I: the JavaScript runtime *)
(* ================================================================== *)

Module JS.

(** ** Numbers and strings *)

(** [Number.prototype.toString] (radix 10) on an integer-valued number. *)
Definition Number_toString (n : Z) : string :=
NilZero.string_of_int (Z.to_int n).

Fixpoint repeat_string (s : string) (n : nat) : string :=
match n with
| O => ""
| S n' => s ++ repeat_string s n'
end.

(** [String.prototype.padStart(targetLength, padString)]: the pad string is
  repeated and truncated to fill the missing length; an empty pad string
  or a string that is already long enough leaves the receiver unchanged. *)
Definition String_padStart (s : string) (targetLength : nat) (padString : string)
: string :=
let fill := (targetLength - String.length s)%nat in
match padString with
| "" => s
| _ => substring 0 fill (repeat_string padString fill) ++ s
end.

Definition digit_of_ascii (c : ascii) : option Z :=
let n := Z.of_nat (nat_of_ascii c) in
if (48 <=? n) && (n <=? 57) then Some (n - 48) else None.

(** The longest prefix of decimal digits of [s], read as a number, with the
  number of digits consumed. *)
Fixpoint digits_prefix (acc : Z) (seen : nat) (s : string) : Z * nat :=
match s with
| "" => (acc, seen)
| String c s' =>
    match digit_of_ascii c with
    | Some d => digits_prefix (10 * acc + d) (S seen) s'
    | None => (acc, seen)
    end
end.

(** [parseInt(string)] with the default radix, on strings without leading
  white space and without a hexadecimal prefix (the keys parsed by the
  handler are produced by [Number_toString] and [String_padStart]): an
  optional sign, then the longest prefix of digits; [NaN] ([None]) when no
  digit is found. *)
Definition parseInt (s : string) : option Z :=
let '(sign, rest) :=
  match s with
  | String "-" r => (-1, r)
  | String "+" r => (1, r)
  | _ => (1, s)
  end in
match digits_prefix 0 0 rest with
| (_, O) => None
| (n, _) => Some (sign * n)
end.

(** Reading [array[index]] where the index is a number: [undefined] when the
  index is [NaN], negative or past the end. *)
Definition Array_get {A : Type} (a : list A) (index : option Z) : option A :=
match index with
| Some i => if i <? 0 then None else nth_error a (Z.to_nat i)
| None => None
end.

(** ** Ordinary objects used as string-keyed tallies

  An object of type [Record<string, number>] is the list of its own
  properties in creation order.  Assigning to an existing key keeps the
  key's place; assigning to a new key appends it. *)

Definition JsObject := list (string * Z).

Fixpoint obj_get (o : JsObject) (k : string) : option Z :=
match o with
| [] => None
| (k', v) :: o' => if String.eqb k' k then Some v else obj_get o' k
end.

Fixpoint obj_set (o : JsObject) (k : string) (v : Z) : JsObject :=
match o with
| [] => [(k, v)]
| (k', v') :: o' =>
    if String.eqb k' k then (k', v) :: o' else (k', v') :: obj_set o' k v
end.

(** [x || 0] on a tally: [undefined] and [0] are both falsy. *)
Definition or_zero (x : option Z) : Z :=
match x with
| Some v => if v =? 0 then 0 else v
| None => 0
end.

(** An array index is a property key that is the canonical decimal string of
  an integer between 0 and 2^32 - 2 (ECMAScript, CanonicalNumericIndexString
  and the definition of "array index"). *)
Definition array_index (k : string) : option Z :=
match digits_prefix 0 0 k with
| (n, S _) =>
    if String.eqb (Number_toString n) k && (n <=? 4294967294)
    then Some n else None
| (_, O) => None
end.

Definition is_array_index (k : string) : bool :=
match array_index k with Some _ => true | None => false end.

Definition index_of_key (k : string) : Z :=
match array_index k with Some n => n | None => 0 end.

(** ** Objects whose keys come from the input

    The keys of the month and weekday tallies are printed numbers.  The keys
    of the language tally are arbitrary strings, and a plain object [{}]
    inherits from [Object.prototype]: reading [acc[k]] for one of the names
    below finds an inherited function (for ["__proto__"], the prototype
    object itself), which is truthy, so that [(acc[k] || 0) + 1] is a string
    concatenation and not a sum. *)

(** What a property of such a tally holds: a count, or a string that does
    not read as a number (the text of a function or of an object, followed
    by ones). *)
Inductive TallyValue :=
| Count (n : Z)
| Text.

(** The property names of [Object.prototype] (ECMAScript, "Properties of the
    Object Prototype Object", with Annex B). *)
Definition Object_prototype_keys : list string :=
  ["constructor"; "hasOwnProperty"; "isPrototypeOf"; "propertyIsEnumerable";
   "toLocaleString"; "toString"; "valueOf"; "__proto__";
   "__defineGetter__"; "__defineSetter__"; "__lookupGetter__";
   "__lookupSetter__"].

Definition inherited (k : string) : bool :=
  existsb (String.eqb k) Object_prototype_keys.

Fixpoint own_get (o : list (string * TallyValue)) (k : string)
  : option TallyValue :=
  match o with
  | [] => None
  | (k', v) :: o' => if String.eqb k' k then Some v else own_get o' k
  end.

Fixpoint own_set (o : list (string * TallyValue)) (k : string) (v : TallyValue)
  : list (string * TallyValue) :=
  match o with
  | [] => [(k, v)]
  | (k', v') :: o' =>
      if String.eqb k' k then (k', v) :: o' else (k', v') :: own_set o' k v
  end.

(** [(acc[k] || 0) + 1]: an own count is incremented; an own string, or an
    inherited function or object, is truthy and gets ["1"] appended; an
    absent property counts from zero. *)
Definition incremented (acc : list (string * TallyValue)) (k : string)
  : TallyValue :=
  match own_get acc k with
  | Some (Count n) => Count (or_zero (Some n) + 1)
  | Some Text => Text
  | None => if inherited k then Text else Count 1
  end.

(** [acc[k] = v] for a string or number [v]: an own property is created or
    updated, except for ["__proto__"], whose inherited setter ignores a value
    that is neither an object nor [null]. *)
Definition assign (acc : list (string * TallyValue)) (k : string)
    (v : TallyValue) : list (string * TallyValue) :=
  if String.eqb k "__proto__" then acc else own_set acc k v.

(** What the engine's sort makes of an array when the comparator does not
    compare consistently (here: when it returns [NaN] for the pairs with a
    string value).  ECMAScript leaves the resulting order to the
    implementation. *)
Definition EngineSort : Type :=
  list (string * TallyValue) -> list (string * TallyValue).

(** ** [Array.prototype.sort] with a comparator

  The sort is stable (ECMAScript 2019): an element stays before the
  elements that followed it unless the comparator puts it strictly after. *)
Section Sort.
Context {A : Type} (comparefn : A -> A -> Z).

Fixpoint sort_insert (x : A) (sorted : list A) : list A :=
match sorted with
| [] => [x]
| y :: rest =>
  if comparefn x y >? 0 then y :: sort_insert x rest
  else x :: sorted
end.

Definition Array_sort (a : list A) : list A :=
fold_right sort_insert [] a.
End Sort.

(** Integer-keyed properties are enumerated first, in ascending numeric
  order, then string-keyed properties in creation order
  (OrdinaryOwnPropertyKeys). *)
Definition Object_entries {V : Type} (o : list (string * V)) : list (string * V) :=
Array_sort (fun a b => index_of_key (fst a) - index_of_key (fst b))
           (filter (fun e => is_array_index (fst e)) o)
++ filter (fun e => negb (is_array_index (fst e))) o.

(** ** Dates

  Time values are milliseconds since the epoch, in UTC; [None] is the time
  value [NaN] of an invalid date.  The day arithmetic is that of ECMAScript
  (section "Time Values and Time Range"). *)

Definition msPerDay : Z := 86400000.

Definition Day (t : Z) : Z := t / msPerDay.

Definition DaysInYear (y : Z) : Z :=
if negb (y mod 4 =? 0) then 365
else if negb (y mod 100 =? 0) then 366
else if negb (y mod 400 =? 0) then 365
else 366.

Definition DayFromYear (y : Z) : Z :=
365 * (y - 1970) + (y - 1969) / 4 - (y - 1901) / 100 + (y - 1601) / 400.

Definition TimeFromYear (y : Z) : Z := msPerDay * DayFromYear y.

(** The largest [y] with [TimeFromYear y <= t]: an estimate from the mean
  length of the Gregorian year, corrected by at most one year. *)
Definition YearFromTime (t : Z) : Z :=
let d := Day t in
let y := 1970 + (400 * d) / 146097 in
if d <? DayFromYear y then y - 1
else if DayFromYear (y + 1) <=? d then y + 1
else y.

Definition InLeapYear (t : Z) : Z :=
if DaysInYear (YearFromTime t) =? 366 then 1 else 0.

Definition DayWithinYear (t : Z) : Z := Day t - DayFromYear (YearFromTime t).

(** Month number of a time value, 0 for January to 11 for December. *)
Definition MonthFromTime (t : Z) : Z :=
let d := DayWithinYear t in
let leap := InLeapYear t in
if d <? 31 then 0
else if d <? 59 + leap then 1
else if d <? 90 + leap then 2
else if d <? 120 + leap then 3
else if d <? 151 + leap then 4
else if d <? 181 + leap then 5
else if d <? 212 + leap then 6
else if d <? 243 + leap then 7
else if d <? 273 + leap then 8
else if d <? 304 + leap then 9
else if d <? 334 + leap then 10
else 11.

(** Day number, within its year, of the first day of month [m] (0 to 11). *)
Definition month_start (m : Z) (leap : Z) : Z :=
match m with
| 0 => 0
| 1 => 31
| 2 => 59 + leap
| 3 => 90 + leap
| 4 => 120 + leap
| 5 => 151 + leap
| 6 => 181 + leap
| 7 => 212 + leap
| 8 => 243 + leap
| 9 => 273 + leap
| 10 => 304 + leap
| _ => 334 + leap
end.

Definition days_in_month (y m : Z) : Z :=
let leap := if DaysInYear y =? 366 then 1 else 0 in
match m with
| 1 => 28 + leap
| 3 | 5 | 8 | 10 => 30
| _ => 31
end.

(** [MakeDay(year, month, date)] for a month in 0..11. *)
Definition MakeDay (year month date : Z) : Z :=
DayFromYear year
+ month_start month (if DaysInYear year =? 366 then 1 else 0)
+ date - 1.

Definition MakeDate (day time : Z) : Z := day * msPerDay + time.

(** The calendar date written by a string of the form [YYYY-MM-DD]: four,
  two and two decimal digits, a month between 01 and 12 and a day that
  exists in that month.  This is the date-only form of the ECMAScript
  date-time string format, and the form of the GraphQL [Date] scalar. *)
Definition parse_iso_date (s : string) : option (Z * Z * Z) :=
match list_ascii_of_string s with
| [y1; y2; y3; y4; dash1; m1; m2; dash2; d1; d2] =>
    match digit_of_ascii y1, digit_of_ascii y2, digit_of_ascii y3,
          digit_of_ascii y4, digit_of_ascii m1, digit_of_ascii m2,
          digit_of_ascii d1, digit_of_ascii d2 with
    | Some a, Some b, Some c, Some d, Some e, Some f, Some g, Some h =>
        let y := 1000 * a + 100 * b + 10 * c + d in
        let m := 10 * e + f in
        let dd := 10 * g + h in
        if Ascii.eqb dash1 "-" && Ascii.eqb dash2 "-"
           && (1 <=? m) && (m <=? 12)
           && (1 <=? dd) && (dd <=? days_in_month y (m - 1))
        then Some (y, m, dd) else None
    | _, _, _, _, _, _, _, _ => None
    end
| _ => None
end.

Section Dates.
(** What the engine's [Date.parse] makes of a string that is not of the
form above is implementation-defined: it is a parameter. *)
Variable legacy_parse : string -> option Z.

(** The offset of local time from UTC, in milliseconds, at a UTC time
value (ECMAScript's LocalTZA): the time zone of the process. *)
Variable LocalTZA : Z -> Z.

(** [Date.parse]: a date-only form is midnight UTC of that day. *)
Definition Date_parse (s : string) : option Z :=
match parse_iso_date s with
| Some (y, m, d) => Some (MakeDate (MakeDay y (m - 1) d) 0)
| None => legacy_parse s
end.

(** [new Date(a) >= new Date(b)]: the time values are compared as numbers,
and a comparison with [NaN] is false. *)
Definition Date_ge (a b : option Z) : bool :=
match a, b with
| Some ta, Some tb => tb <=? ta
| _, _ => false
end.

Definition LocalTime (t : Z) : Z := t + LocalTZA t.

(** [Date.prototype.getMonth]: the month in local time, [NaN] for an
invalid date. *)
Definition Date_getMonth (t : option Z) : option Z :=
option_map (fun tv => MonthFromTime (LocalTime tv)) t.
End Dates.

(** ** Fractional numbers: binary64 division and [Math.round]

  A finite binary64 value is a rational [m * 2^e] with [|m| < 2^53].  The
  result of an arithmetic operation is the exact result rounded to the
  nearest such value, ties to the even significand (IEEE 754
  roundTiesToEven).  The exponent range is left unbounded: the quotients
  formed by the handler are far from the overflow and subnormal ranges. *)

Definition pow2 (e : Z) : Q := Qpower 2 e.

(** [floor (log2 x)] for a positive rational [x]. *)
Definition ilog2 (x : Q) : Z :=
let e := Z.log2 (Qnum x) - Z.log2 (Z.pos (Qden x)) in
if Qle_bool (pow2 e) x then e else e - 1.

Definition round_half_even (y : Q) : Z :=
let n := Qfloor y in
match Qcompare (y - inject_Z n) (1 # 2) with
| Lt => n
| Gt => n + 1
| Eq => if Z.even n then n else n + 1
end.

(** A positive rational rounded to 53 significant bits. *)
Definition round_binary64_pos (x : Q) : Q :=
let e := ilog2 x - 52 in
(inject_Z (round_half_even (x * pow2 (- e))) * pow2 e)%Q.

Definition round_binary64 (x : Q) : Q :=
match Qcompare x 0 with
| Eq => 0%Q
| Gt => round_binary64_pos x
| Lt => (- round_binary64_pos (- x))%Q
end.

(** The [/] operator on numbers, for a non-zero divisor. *)
Definition Number_div (a b : Q) : Q := round_binary64 (a / b).

(** [Math.round]: the nearest integer, a tie going up; the operation is
  exact on binary64 values. *)
Definition Math_round (x : Q) : Z := Qfloor (x + (1 # 2)).

End JS.


(* ================================================================== *)
(** * Part II: the handler of [stats.ts] *)
(* ================================================================== *)

(** ** Data *)

Record ContributionDay := {
  contributionCount : Z;
  date : string;
  weekday : Z
}.

(** The shape of the GraphQL response selected by the handler's query. *)
Module Upstream.
Record Week := { contributionDays : list ContributionDay }.

Record ContributionCalendar := {
  totalContributions : Z;
  weeks : list Week
}.

Record ContributionsCollection := {
  contributionCalendar : ContributionCalendar
}.

Record Language := { name : string }.

Record Repository := {
  stargazerCount : Z;
  primaryLanguage : option Language
}.

Record RepositoryConnection := { nodes : list Repository }.

Record User := {
  contributionsCollection : ContributionsCollection;
  repositories : RepositoryConnection
}.

(** [user] is [null] when the login does not resolve. *)
Record Response := { user : option User }.
End Upstream.
Import Upstream.

(** [{ name, commits }]; [name] is [undefined] when the table lookup falls
    outside the table, and is then dropped from the JSON body. *)
Record Peak := {
  name : option string;
  commits : Z
}.

Record GitHubStats := {
  longestStreak : Z;
  totalCommits : Z;
  commitRank : string;
  calendarData : list ContributionDay;
  mostActiveDay : Peak;
  mostActiveMonth : Peak;
  starsEarned : Z;
  topLanguages : list string
}.

Inductive JsonBody :=
| StatsBody (stats : GitHubStats)
| ErrorBody (error : string).

Record NextResponse := {
  body : JsonBody;
  status : Z
}.

(** The request, as far as the handler reads it: the query parameters of its
    URL, in order. *)
Record Request := { searchParams : list (string * string) }.

(** ** Exceptions and the outbound call log *)

Record JsError := { message : string }.

Definition Exc (A : Type) : Type := (JsError + A)%type.

(** The GraphQL calls made so far, oldest first, by their [username]
    variable. *)
Definition World := list string.

Definition M (A : Type) : Type := World -> Exc A * World.

Definition ret {A} (a : A) : M A := fun w => (inr a, w).

Definition throw {A} (e : JsError) : M A := fun w => (inl e, w).

Definition bind {A B} (m : M A) (k : A -> M B) : M B :=
  fun w =>
    match m w with
    | (inr a, w') => k a w'
    | (inl e, w') => (inl e, w')
    end.

Definition try_catch {A} (m : M A) (handler : JsError -> M A) : M A :=
  fun w =>
    match m w with
    | (inr a, w') => (inr a, w')
    | (inl e, w') => handler e w'
    end.

Notation "x <- m ;; k" := (bind m (fun x => k))
  (at level 61, m at next level, right associativity).

Definition TypeError {A} (msg : string) : M A := throw {| message := msg |}.

(** Reading property [prop] of a value that may be [null]. *)
Definition read_null {A} (v : option A) (prop : string) : M A :=
  match v with
  | Some a => ret a
  | None => TypeError ("Cannot read properties of null (reading '" ++ prop ++ "')")
  end.

(** Reading property [prop] of a value that may be [undefined]. *)
Definition read_undefined {A} (v : option A) (prop : string) : M A :=
  match v with
  | Some a => ret a
  | None =>
      TypeError ("Cannot read properties of undefined (reading '" ++ prop ++ "')")
  end.

(** [URLSearchParams.prototype.get]: the first value of the name, or [null]. *)
Fixpoint URLSearchParams_get (params : list (string * string)) (key : string)
  : option string :=
  match params with
  | [] => None
  | (k, v) :: rest => if String.eqb k key then Some v else URLSearchParams_get rest key
  end.

(** ** Constants *)

Definition WEEKDAY_NAMES : list string :=
  ["Sunday"; "Monday"; "Tuesday"; "Wednesday"; "Thursday"; "Friday"; "Saturday"].

Definition MONTH_NAMES : list string :=
  ["January"; "February"; "March"; "April"; "May"; "June"; "July"; "August";
   "September"; "October"; "November"; "December"].

(** ** [getCommitRank] *)

Definition getCommitRank (totalCommits : Z) : string :=
  if totalCommits >=? 5000 then "Top 0.5%-1%"
  else if totalCommits >=? 2000 then "Top 1%-3%"
  else if totalCommits >=? 1000 then "Top 5%-10%"
  else if totalCommits >=? 500 then "Top 10%-15%"
  else if totalCommits >=? 200 then "Top 25%-30%"
  else if totalCommits >=? 50 then "Median 50%"
  else "Bottom 30%".

(** ** The request handler [GET] *)

Section Handler.
(** The engine's order for a sort whose comparator is not consistent. *)
Variable engine_sort : JS.EngineSort.

(** The engine's fallback date parser and the time zone of the process. *)
Variable legacy_parse : string -> option Z.
Variable LocalTZA : Z -> Z.

(** [octokit.graphql(query, { username })]: what the upstream answers for
    a login, either a rejection or a response. *)
Variable octokit_graphql : string -> Exc Response.

Definition graphql (username : string) : M Response :=
  fun w => (octokit_graphql username, (w ++ [username])%list).

Definition Date_of (s : string) : option Z := JS.Date_parse legacy_parse s.

(** Lines 134-137: the days of all weeks, from the year boundary on. *)
Definition contribution_days (userData : User) : list ContributionDay :=
  filter
    (fun day => JS.Date_ge (Date_of day.(date)) (Date_of "2024-01-01"))
    (flat_map contributionDays
       userData.(contributionsCollection).(contributionCalendar).(weeks)).

(** Lines 142-143: [month.toString().padStart(2, "0")], where [month] is
    [getMonth() + 1]; [NaN + 1] is [NaN], which prints as ["NaN"]. *)
Definition monthKey (day : ContributionDay) : string :=
  match JS.Date_getMonth LocalTZA (Date_of day.(date)) with
  | Some m => JS.String_padStart (JS.Number_toString (m + 1)) 2 "0"
  | None => "NaN"
  end.

Definition dayKey (day : ContributionDay) : string :=
  JS.Number_toString day.(weekday).

(** The body of both [forEach] loops, for a key function. *)
Definition tally (key : ContributionDay -> string)
    (o : JS.JsObject) (day : ContributionDay) : JS.JsObject :=
  JS.obj_set o (key day)
    (JS.or_zero (JS.obj_get o (key day)) + day.(contributionCount)).

Definition monthlyCommits (days : list ContributionDay) : JS.JsObject :=
  fold_left (tally monthKey) days [].

Definition dailyCommits (days : list ContributionDay) : JS.JsObject :=
  fold_left (tally dayKey) days [].

(** The comparator [([, a], [, b]) => b - a]. *)
Definition by_count_desc (x y : string * Z) : Z := snd y - snd x.

(** [const [first] = Object.entries(o).sort(...)]: [undefined] when the
    object has no property. *)
Definition peak_entry (o : JS.JsObject) : option (string * Z) :=
  hd_error (JS.Array_sort by_count_desc (JS.Object_entries o)).

(** Lines 165-168. *)
Definition totalStars (repos : list Repository) : Z :=
  fold_left (fun acc repo => acc + repo.(stargazerCount)) repos 0.

(** Lines 171-180; [repo.primaryLanguage?.name] is falsy for a [null]
    language and for an empty name. *)
Definition languages (repos : list Repository) : list (string * JS.TallyValue) :=
  fold_left
    (fun acc repo =>
       match repo.(primaryLanguage) with
       | Some lang =>
           if String.eqb lang.(Upstream.name) "" then acc
           else JS.assign acc lang.(Upstream.name)
                  (JS.incremented acc lang.(Upstream.name))
       | None => acc
       end)
    repos [].

(** The comparator [([, a], [, b]) => (b as number) - (a as number)]: the
    difference of two counts, [NaN] when one of the values is a string. *)
Definition by_value_desc (x y : string * JS.TallyValue) : option Z :=
  match snd x, snd y with
  | JS.Count a, JS.Count b => Some (b - a)
  | _, _ => None
  end.

Definition is_count (e : string * JS.TallyValue) : bool :=
  match snd e with JS.Count _ => true | JS.Text => false end.

(** The sort of line 183: stable by descending count when every value is a
    count; otherwise the comparator returns [NaN] for some pairs and the
    order is the engine's. *)
Definition sort_languages (entries : list (string * JS.TallyValue))
  : list (string * JS.TallyValue) :=
  if forallb is_count entries
  then JS.Array_sort
         (fun x y => match by_value_desc x y with Some c => c | None => 0 end)
         entries
  else engine_sort entries.

(** Lines 182-185. *)
Definition top_languages (repos : list Repository) : list string :=
  map fst (firstn 3 (sort_languages (JS.Object_entries (languages repos)))).

(** Lines 188-197: the loop state is [(currentStreak, maxStreak)]. *)
Definition streak_step (st : Z * Z) (day : ContributionDay) : Z * Z :=
  let '(currentStreak, maxStreak) := st in
  if day.(contributionCount) >? 0
  then (currentStreak + 1, Z.max maxStreak (currentStreak + 1))
  else (0, maxStreak).

Definition max_streak (days : list ContributionDay) : Z :=
  snd (fold_left streak_step days (0, 0)).

(** Line 210: [Math.round(total / (contributionDays.length / 7))]. *)
Definition average_per_day (total : Z) (days : list ContributionDay) : Z :=
  JS.Math_round
    (JS.Number_div (inject_Z total)
       (JS.Number_div (inject_Z (Z.of_nat (List.length days))) (inject_Z 7))).

(** Lines 133-218: everything between the upstream answer and the stats
    object.  The properties of the literal are evaluated in order, so the
    first failing read is that of [mostActiveDay[0]]. *)
Definition build_stats (userData : User) : M GitHubStats :=
  let days := contribution_days userData in
  let mostActiveMonth := peak_entry (monthlyCommits days) in
  let mostActiveDay := peak_entry (dailyCommits days) in
  let repos := userData.(repositories).(nodes) in
  let total :=
    userData.(contributionsCollection).(contributionCalendar).(totalContributions) in
  day <- read_undefined mostActiveDay "0" ;;
  month <- read_undefined mostActiveMonth "0" ;;
  ret {| longestStreak := max_streak days;
         totalCommits := total;
         commitRank := getCommitRank total;
         calendarData := days;
         mostActiveDay :=
           {| name := JS.Array_get WEEKDAY_NAMES (JS.parseInt (fst day));
              commits := average_per_day (snd day) days |};
         mostActiveMonth :=
           {| name := JS.Array_get MONTH_NAMES
                        (option_map (fun n => n - 1) (JS.parseInt (fst month)));
              commits := snd month |};
         starsEarned := totalStars repos;
         topLanguages := top_languages repos |}.

Definition json (b : JsonBody) (st : Z) : NextResponse :=
  {| body := b; status := st |}.

(** [!username]: [null] and the empty string are falsy. *)
Definition missing (username : option string) : bool :=
  match username with
  | None => true
  | Some s => String.eqb s ""
  end.

(** The body of the [try] block. *)
Definition GET_try (request : Request) : M NextResponse :=
  let username := URLSearchParams_get request.(searchParams) "username" in
  if missing username then
    ret (json (ErrorBody "Username parameter is required") 400)
  else
    graphqlResponse <- graphql (match username with Some s => s | None => "" end) ;;
    userData <- read_null graphqlResponse.(user) "contributionsCollection" ;;
    stats <- build_stats userData ;;
    ret (json (StatsBody stats) 200).

(** The [catch] block: [error.message || "Failed to fetch GitHub statistics"]. *)
Definition GET_catch (error : JsError) : M NextResponse :=
  ret (json
         (ErrorBody (if String.eqb error.(message) ""
                     then "Failed to fetch GitHub statistics"
                     else error.(message)))
         500).

Definition GET (request : Request) : M NextResponse :=
  try_catch (GET_try request) GET_catch.
End Handler.

(* ================================================================== *)
(** * Part II bis: the page that calls the endpoint ([index.tsx]) *)
(* ================================================================== *)

Module Page.

(** The component state: the four [useState] cells. *)
Record State := {
  username : string;
  stats : option JsonBody;
  loading : bool;
  error : string
}.

(** How [fetch] and [response.json()] end: [fetch] rejects; the response
    arrives but its body is not JSON, so [json()] rejects; or the response
    arrives with a JSON body. *)
Inductive FetchOutcome :=
| FetchRejected (err : JsError)
| BodyNotJson (err : JsError)
| Fetched (response : NextResponse).

(** [response.ok]: a status from 200 to 299. *)
Definition ok (response : NextResponse) : bool :=
  (200 <=? response.(status)) && (response.(status) <=? 299).

(** [data.error || "Failed to fetch stats"]. *)
Definition error_of (data : JsonBody) : string :=
  match data with
  | ErrorBody e => if String.eqb e "" then "Failed to fetch stats" else e
  | StatsBody _ => "Failed to fetch stats"
  end.

(** The state once [handleSubmit] has run to the end of its [finally]
    block: the three resets, then [setStats(data)] or [setError(err.message)],
    then [setLoading(false)]. *)
Definition handleSubmit (outcome : FetchOutcome) (s : State) : State :=
  let thrown : option JsError :=
    match outcome with
    | FetchRejected err => Some err
    | BodyNotJson err => Some err
    | Fetched response =>
        if negb (ok response)
        then Some {| message := error_of response.(body) |}
        else None
    end in
  {| username := s.(username);
     stats :=
       match outcome, thrown with
       | Fetched response, None => Some response.(body)
       | _, _ => None
       end;
     loading := false;
     error :=
       match thrown with
       | Some err => err.(message)
       | None => ""
       end |}.

(** What the page's [fetch] gets from the handler. *)
Definition outcome_of (served : Exc NextResponse * World) : FetchOutcome :=
  match fst served with
  | inr response => Fetched response
  | inl e => BodyNotJson e
  end.

End Page.

(* ================================================================== *)
(** * Part III: reference definitions and sample inputs *)
(* ================================================================== *)

Local Open Scope list_scope.

(** A request that gets an answer: it names a user, and the upstream returns
    that user's record. *)
Definition Answered (octokit_graphql : string -> Exc Response)
    (request : Request) (username : string) (userData : User) : Prop :=
  URLSearchParams_get request.(searchParams) "username" = Some username
  /\ username <> ""
  /\ octokit_graphql username = inr {| user := Some userData |}.

(** ** The commit-rank table of the specification *)

Definition rank_table : list (Z * string) :=
  [(5000, "Top 0.5%-1%"); (2000, "Top 1%-3%"); (1000, "Top 5%-10%");
   (500, "Top 10%-15%"); (200, "Top 25%-30%"); (50, "Median 50%")].

(** First row, from the top, whose threshold is reached. *)
Fixpoint first_match (table : list (Z * string)) (otherwise : string) (n : Z)
  : string :=
  match table with
  | [] => otherwise
  | (threshold, label) :: rows =>
      if threshold <=? n then label else first_match rows otherwise n
  end.

(** ** Sums *)

Fixpoint sum_stars (repos : list Repository) : Z :=
  match repos with
  | [] => 0
  | repo :: rest => repo.(stargazerCount) + sum_stars rest
  end.

(** ** Sample inputs *)

Definition sample_sort : JS.EngineSort := fun entries => entries.
Definition no_legacy : string -> option Z := fun _ => None.
Definition utc : Z -> Z := fun _ => 0.

Definition day_of (count : Z) (iso : string) (wd : Z) : ContributionDay :=
  {| contributionCount := count; date := iso; weekday := wd |}.

Definition repo_of (stars : Z) (lang : string) : Repository :=
  {| stargazerCount := stars; primaryLanguage := Some {| Upstream.name := lang |} |}.

Definition user_of (total : Z) (days : list ContributionDay)
    (repos : list Repository) : User :=
  {| contributionsCollection :=
       {| contributionCalendar :=
            {| totalContributions := total;
               weeks := [{| contributionDays := days |}] |} |};
     repositories := {| nodes := repos |} |}.

Definition upstream_of (u : User) : string -> Exc Response :=
  fun _ => inr {| user := Some u |}.

Definition request_for (login : string) : Request :=
  {| searchParams := [("username", login)] |}.

Definition sample_days : list ContributionDay :=
  [day_of 1 "2023-12-31" 0; day_of 5 "2024-01-01" 1; day_of 3 "2024-01-02" 2;
   day_of 0 "2024-01-03" 3; day_of 2 "2024-01-04" 4].

Definition sample_repos : list Repository :=
  [repo_of 7 "A"; repo_of 3 "A"; repo_of 2 "B"; repo_of 1 "C"; repo_of 0 "C";
   repo_of 0 "C"].

Definition sample_user : User := user_of 4999 sample_days sample_repos.

(** ** The two kinds of answers *)

Definition is_stats (response : NextResponse) : Prop :=
  response.(status) = 200 /\ exists stats, response.(body) = StatsBody stats.

Definition is_error (response : NextResponse) (code : Z) : Prop :=
  response.(status) = code
  /\ exists msg, response.(body) = ErrorBody msg /\ msg <> "".

(** A stats object none of whose keys is lost in the JSON body: both peak
    names are defined (a key whose value is [undefined] is left out by
    [JSON.stringify]); every other field is a number, a string or an
    array. *)
Definition complete (stats : GitHubStats) : Prop :=
  (exists dayName,
     stats.(mostActiveDay).(name) = Some dayName /\ In dayName WEEKDAY_NAMES)
  /\ (exists monthName,
        stats.(mostActiveMonth).(name) = Some monthName
        /\ In monthName MONTH_NAMES).

(** A record that does not follow the schema: its only day carries weekday
    7. *)
Definition malformed_user : User := user_of 1 [day_of 1 "2024-01-01" 7] [].

(** ** Runs of active days *)

Definition active (day : ContributionDay) : Prop := day.(contributionCount) > 0.

(** [n] consecutive days of the list are all active. *)
Definition is_run (days : list ContributionDay) (n : nat) : Prop :=
  exists before run after,
    days = before ++ run ++ after /\ List.length run = n /\ Forall active run.

(** The last [n] days of the list are all active. *)
Definition ends_with_run (days : list ContributionDay) (n : nat) : Prop :=
  exists before run,
    days = before ++ run /\ List.length run = n /\ Forall active run.

(** ** The year boundary, on calendar dates *)

(** [(y1, m1, d1)] is the same day as [(y2, m2, d2)] or an earlier one. *)
Definition civil_leb (a b : Z * Z * Z) : bool :=
  let '(y1, m1, d1) := a in
  let '(y2, m2, d2) := b in
  (y1 <? y2) || ((y1 =? y2) && ((m1 <? m2) || ((m1 =? m2) && (d1 <=? d2)))).

(** The day is on or after January 1, 2024: by its calendar date when the
    date has the form [YYYY-MM-DD]; for any other string, by the time value
    the engine's fallback parser gives it, against midnight UTC of that
    day. *)
Definition on_or_after_boundary (legacy_parse : string -> option Z)
    (day : ContributionDay) : bool :=
  match JS.parse_iso_date day.(date) with
  | Some ymd => civil_leb (2024, 1, 1) ymd
  | None =>
      match legacy_parse day.(date) with
      | Some t => 1704067200000 <=? t
      | None => false
      end
  end.

Definition all_days (userData : User) : list ContributionDay :=
  flat_map contributionDays
    userData.(contributionsCollection).(contributionCalendar).(weeks).

(** ** Order of occurrence, first occurrences and totals *)

(** Some occurrence of [a] in [l] comes before some occurrence of [b]. *)
Definition before {A : Type} (l : list A) (a b : A) : Prop :=
  exists l1 l2 l3, l = l1 ++ a :: l2 ++ b :: l3.

(** [a] is encountered in [l] at a point where [b] has not been yet. *)
Definition first_before {A : Type} (l : list A) (a b : A) : Prop :=
  a <> b /\ exists l1 l2, l = l1 ++ a :: l2 /\ ~ In b l1.

(** The keys of a list, each at its first occurrence. *)
Fixpoint distinct (keys : list string) : list string :=
  match keys with
  | [] => []
  | k :: rest => k :: filter (fun k' => negb (String.eqb k' k)) (distinct rest)
  end.

(** The sum of the amounts recorded for key [k]. *)
Fixpoint total_of (k : string) (kvs : list (string * Z)) : Z :=
  match kvs with
  | [] => 0
  | (k', c) :: rest => (if String.eqb k' k then c else 0) + total_of k rest
  end.

(** The tally loop on a list of keys with amounts. *)
Definition tally_pairs (kvs : list (string * Z)) : JS.JsObject :=
  fold_left
    (fun o kv => JS.obj_set o (fst kv) (JS.or_zero (JS.obj_get o (fst kv)) + snd kv))
    kvs [].

(** The order a stable sort by ascending [key] puts the elements of [l] in:
    by key, and by their order in [l] among equal keys. *)
Definition sorted_stably {A : Type} (key : A -> Z) (l : list A) (a b : A) : Prop :=
  key a < key b \/ (key a = key b /\ before l a b).

(** ** What the tallies are fed *)

Definition day_pairs (key : ContributionDay -> string)
    (days : list ContributionDay) : list (string * Z) :=
  map (fun day => (key day, day.(contributionCount))) days.

(** The primary-language names of the repositories that have one, in the
    order of the repositories. *)
Fixpoint language_names (repos : list Repository) : list string :=
  match repos with
  | [] => []
  | repo :: rest =>
      match repo.(primaryLanguage) with
      | Some lang =>
          if String.eqb lang.(Upstream.name) "" then language_names rest
          else lang.(Upstream.name) :: language_names rest
      | None => language_names rest
      end
  end.

(** ** The order of enumeration of an object's properties

    [e] is enumerated before [x] by [Object.entries o]: array-index keys by
    ascending index, then the other keys, these in creation order. *)
Definition enumerated_before (o : JS.JsObject) (e x : string * Z) : Prop :=
  match JS.array_index (fst e), JS.array_index (fst x) with
  | Some i, Some j => i < j
  | Some _, None => True
  | None, Some _ => False
  | None, None => before o e x
  end.

(** ** Groups of days *)

(** The summed contribution count of the days whose group ([f], a weekday
    or a month number) is [v]. *)
Fixpoint group_total (f : ContributionDay -> Z) (v : Z)
    (days : list ContributionDay) : Z :=
  match days with
  | [] => 0
  | day :: rest =>
      (if f day =? v then day.(contributionCount) else 0) + group_total f v rest
  end.

(** The month of a day in the time zone of the process, 1 for January to 12
    for December ([getMonth() + 1]); 0 stands for the [NaN] of an invalid
    date. *)
Definition month_number (legacy_parse : string -> option Z) (LocalTZA : Z -> Z)
    (day : ContributionDay) : Z :=
  match JS.Date_getMonth LocalTZA (Date_of legacy_parse day.(date)) with
  | Some m => m + 1
  | None => 0
  end.

(** The property key of a month number. *)
Definition month_key (n : Z) : string :=
  JS.String_padStart (JS.Number_toString n) 2 "0".

(** Month [n] is enumerated before month [n'] by [Object.entries] on the
    monthly tally of [days]: the keys "10", "11" and "12" are array indices
    and come first, in ascending order; "01" to "09" are not, and follow in
    the order in which the months were first met. *)
Definition month_enumerated_before (month_of : ContributionDay -> Z)
    (days : list ContributionDay) (n n' : Z) : Prop :=
  (10 <= n /\ (n < n' \/ n' < 10))
  \/ (n < 10 /\ n' < 10 /\ first_before (map month_of days) n n').




(** ** Ranking of languages *)

(** The count of repositories per language name, one property per name in
    the order in which the names are first met. *)
Definition language_tally (repos : list Repository) : JS.JsObject :=
  tally_pairs (map (fun n => (n, 1)) (language_names repos)).

(** A tally of numbers, as a tally of values. *)
Definition counted (o : JS.JsObject) : list (string * JS.TallyValue) :=
  map (fun e => (fst e, JS.Count (snd e))) o.

(** No language is named like a property of [Object.prototype]. *)
Definition plain_names (names : list string) : Prop :=
  forall n, In n names -> JS.inherited n = false.

(** The number of repositories whose primary language is [a]. *)
Definition language_count (names : list string) (a : string) : Z :=
  Z.of_nat (count_occ string_dec names a).

(** [a] ranks above [b]: more repositories, or as many and met first. *)
Definition outranks (names : list string) (a b : string) : Prop :=
  language_count names a > language_count names b
  \/ (language_count names a = language_count names b /\ first_before names a b).

(** Two repositories, the second in a language named by a number. *)
Definition numeric_name_repos : list Repository := [repo_of 1 "Go"; repo_of 1 "7"].

(** ** Rounding *)

(** Half a unit in the last place of a binary64 value, relative to the
    value: 2^-53. *)
Definition ulp_half : Q := 1 # 9007199254740992.


(** ** Tiers of the commit rank, from the lowest to the highest *)

Definition rank_tiers : list string :=
  ["Bottom 30%"; "Median 50%"; "Top 25%-30%"; "Top 10%-15%"; "Top 5%-10%";
   "Top 1%-3%"; "Top 0.5%-1%"].

(** The position of a label among the tiers. *)
Fixpoint tier_from (labels : list string) (i : Z) (label : string) : option Z :=
  match labels with
  | [] => None
  | l :: rest => if String.eqb l label then Some i else tier_from rest (i + 1) label
  end.

Definition tier_of (label : string) : option Z := tier_from rank_tiers 0 label.

(** ** The reference implementation of binary64 in the standard library

    [SpecFloat.SFdiv 53 1024] is the library's specification of binary64
    division; the rounding model of Part I is checked against it on sample
    quotients. *)

Definition spec_float_of_Z (n : Z) : SpecFloat.spec_float :=
  match n with
  | Z0 => SpecFloat.S754_zero false
  | Zpos p => SpecFloat.binary_normalize 53 1024 (Zpos p) 0 false
  | Zneg p => SpecFloat.binary_normalize 53 1024 (Zneg p) 0 false
  end.

Definition Q_of_spec_float (f : SpecFloat.spec_float) : Q :=
  match f with
  | SpecFloat.S754_finite s m e =>
      ((if s then - inject_Z (Zpos m) else inject_Z (Zpos m)) * JS.pow2 e)%Q
  | _ => 0%Q
  end.

(** [total / (length / 7)] by the library's division. *)
Definition reference_quotient (total len : Z) : Q :=
  Q_of_spec_float
    (SpecFloat.SFdiv 53 1024 (spec_float_of_Z total)
       (SpecFloat.SFdiv 53 1024 (spec_float_of_Z len) (spec_float_of_Z 7))).

Definition model_quotient (total len : Z) : Q :=
  JS.Number_div (inject_Z total) (JS.Number_div (inject_Z len) (inject_Z 7)).

Fixpoint Z_range (from : Z) (n : nat) : list Z :=
  match n with
  | O => []
  | S k => from :: Z_range (from + 1) k
  end.

(** Language [a] is enumerated before language [b] by [Object.entries] on
    the language tally: names that are array indices first, by ascending
    index, then the other names in the order in which they were first
    met. *)
Definition name_enumerated_before (names : list string) (a b : string) : Prop :=
  match JS.array_index a, JS.array_index b with
  | Some i, Some j => i < j
  | Some _, None => True
  | None, Some _ => False
  | None, None => first_before names a b
  end.

(** [a] ranks above [b]: more repositories, or as many and enumerated
    first. *)
Definition outranks_enumerated (names : list string) (a b : string) : Prop :=
  language_count names a > language_count names b
  \/ (language_count names a = language_count names b
      /\ name_enumerated_before names a b).

(* ================================================================== *)
(** * Part IV: properties *)
(* ================================================================== *)

(** ** Sanity checks of the runtime model *)

Example padStart_month : JS.String_padStart (JS.Number_toString 3) 2 "0" = "03".
Proof. reflexivity. Qed.

Example padStart_month12 : JS.String_padStart (JS.Number_toString 12) 2 "0" = "12".
Proof. reflexivity. Qed.

Example array_index_examples :
  map JS.array_index ["0"; "6"; "10"; "01"; "09"; "Rust"; "4294967295"; ""]
  = [Some 0; Some 6; Some 10; None; None; None; None; None].
Proof. vm_compute. reflexivity. Qed.

Example entries_order :
  JS.Object_entries [("01", 4); ("b", 1); ("12", 2); ("a", 7); ("10", 2); ("3", 0)]
  = [("3", 0); ("10", 2); ("12", 2); ("01", 4); ("b", 1); ("a", 7)].
Proof. vm_compute. reflexivity. Qed.

Example Date_parse_boundary :
  JS.Date_parse no_legacy "2024-01-01" = Some 1704067200000.
Proof. vm_compute. reflexivity. Qed.

Example getMonth_examples :
  map (fun s => JS.Date_getMonth utc (JS.Date_parse no_legacy s))
      ["2024-01-01"; "2024-02-29"; "2024-03-01"; "2024-12-31"; "1969-12-31";
       "2023-02-29"]
  = [Some 0; Some 1; Some 2; Some 11; Some 11; None].
Proof. vm_compute. reflexivity. Qed.

(** ** The sort and the enumeration of properties *)

Section SortFacts.
Context {A : Type} (cmp : A -> A -> Z).

Lemma sort_insert_perm (x : A) (l : list A) :
  Permutation (JS.sort_insert cmp x l) (x :: l).
Proof.
  induction l as [|y l IH]; simpl; [reflexivity|].
  destruct (cmp x y >? 0); [|reflexivity].
  rewrite IH. apply perm_swap.
Qed.

Lemma Array_sort_perm (l : list A) : Permutation (JS.Array_sort cmp l) l.
Proof.
  induction l as [|x l IH]; simpl; [reflexivity|].
  rewrite sort_insert_perm. now constructor.
Qed.
End SortFacts.

Lemma filter_split_perm {A} (f : A -> bool) (l : list A) :
  Permutation (filter f l ++ filter (fun x => negb (f x)) l) l.
Proof.
  induction l as [|x l IH]; simpl; [reflexivity|].
  destruct (f x); simpl.
  - now constructor.
  - symmetry. apply Permutation_cons_app. now symmetry.
Qed.

Lemma Object_entries_perm (o : JS.JsObject) : Permutation (JS.Object_entries o) o.
Proof.
  unfold JS.Object_entries.
  rewrite Array_sort_perm.
  apply (filter_split_perm (fun e => JS.is_array_index (fst e))).
Qed.

Section HandlerFacts.
Variable engine_sort : JS.EngineSort.
Variable legacy_parse : string -> option Z.
Variable LocalTZA : Z -> Z.
Variable octokit_graphql : string -> Exc Response.

Lemma obj_set_not_nil (o : JS.JsObject) k v : JS.obj_set o k v <> [].
Proof. destruct o as [|[k' v'] o]; simpl; [|destruct (k' =? k)%string]; discriminate. Qed.

Lemma tally_fold_not_nil key (days : list ContributionDay) (o : JS.JsObject) :
  days <> [] \/ o <> [] -> fold_left (tally key) days o <> [].
Proof.
  revert o. induction days as [|d days IH]; intros o H; simpl.
  - destruct H; congruence.
  - apply IH. right. apply obj_set_not_nil.
Qed.

Lemma peak_entry_In (o : JS.JsObject) e : peak_entry o = Some e -> In e o.
Proof.
  unfold peak_entry. intros H.
  eapply Permutation_in; [apply Object_entries_perm|].
  eapply Permutation_in; [apply (Array_sort_perm by_count_desc)|].
  destruct (JS.Array_sort by_count_desc (JS.Object_entries o)); simpl in H;
    [discriminate|]. injection H as ->. now left.
Qed.

Lemma peak_entry_some (o : JS.JsObject) : o <> [] -> exists e, peak_entry o = Some e.
Proof.
  intros H. unfold peak_entry.
  destruct (JS.Array_sort by_count_desc (JS.Object_entries o)) as [|e l] eqn:E.
  - exfalso. apply H. apply Permutation_nil. rewrite <- E.
    etransitivity; [apply Array_sort_perm | apply Object_entries_perm].
  - now exists e.
Qed.

(** *** The handler's control flow *)

Local Abbreviation days_of u := (contribution_days legacy_parse u).
Local Abbreviation run_GET := (GET engine_sort legacy_parse LocalTZA octokit_graphql).

Lemma missing_false username : username <> "" -> missing (Some username) = false.
Proof. intros H. now apply String.eqb_neq. Qed.

(** With at least one day left after the filter, both peaks exist and the
    stats object is built. *)
Lemma build_stats_ok (userData : User) (w : World) :
  days_of userData <> [] ->
  exists day month,
    peak_entry (dailyCommits (days_of userData)) = Some day
    /\ peak_entry (monthlyCommits legacy_parse LocalTZA (days_of userData)) = Some month
    /\ build_stats engine_sort legacy_parse LocalTZA userData w =
       (inr {| longestStreak := max_streak (days_of userData);
               totalCommits :=
                 userData.(contributionsCollection).(contributionCalendar)
                         .(totalContributions);
               commitRank :=
                 getCommitRank userData.(contributionsCollection)
                   .(contributionCalendar).(totalContributions);
               calendarData := days_of userData;
               mostActiveDay :=
                 {| name := JS.Array_get WEEKDAY_NAMES (JS.parseInt (fst day));
                    commits := average_per_day (snd day) (days_of userData) |};
               mostActiveMonth :=
                 {| name := JS.Array_get MONTH_NAMES
                              (option_map (fun n => n - 1) (JS.parseInt (fst month)));
                    commits := snd month |};
               starsEarned := totalStars userData.(repositories).(nodes);
               topLanguages := top_languages engine_sort userData.(repositories).(nodes) |},
        w).
Proof.
  intros Hne.
  destruct (peak_entry_some (dailyCommits (days_of userData))) as [day Hd].
  { apply tally_fold_not_nil. now left. }
  destruct (peak_entry_some (monthlyCommits legacy_parse LocalTZA (days_of userData)))
    as [month Hm].
  { apply tally_fold_not_nil. now left. }
  exists day, month. repeat split; trivial.
  unfold build_stats, bind. rewrite Hd, Hm. reflexivity.
Qed.

Lemma build_stats_empty (userData : User) (w : World) :
  days_of userData = [] ->
  build_stats engine_sort legacy_parse LocalTZA userData w =
  (inl {| message := "Cannot read properties of undefined (reading '0')" |}, w).
Proof.
  intros He. unfold build_stats, bind. rewrite He. reflexivity.
Qed.

Lemma GET_answered request username userData w :
  Answered octokit_graphql request username userData ->
  run_GET request w =
  match build_stats engine_sort legacy_parse LocalTZA userData (w ++ [username]) with
  | (inr stats, w') => (inr (json (StatsBody stats) 200), w')
  | (inl e, w') => GET_catch e w'
  end.
Proof.
  intros (Hu & Hne & Hup).
  unfold GET, try_catch, GET_try. rewrite Hu, (missing_false _ Hne).
  unfold bind, graphql. rewrite Hup. cbn [user read_null ret].
  destruct (build_stats engine_sort legacy_parse LocalTZA userData (w ++ [username]))
    as [[e|stats] w']; reflexivity.
Qed.

Lemma GET_ok request username userData w :
  Answered octokit_graphql request username userData ->
  days_of userData <> [] ->
  exists stats,
    build_stats engine_sort legacy_parse LocalTZA userData (w ++ [username])
      = (inr stats, (w ++ [username])%list)
    /\ run_GET request w = (inr (json (StatsBody stats) 200), (w ++ [username])%list).
Proof.
  intros Ha Hne.
  destruct (build_stats_ok userData (w ++ [username]) Hne)
    as (day & month & _ & _ & Hb).
  eexists. split; [exact Hb|].
  rewrite (GET_answered _ _ _ _ Ha), Hb. reflexivity.
Qed.
End HandlerFacts.

(** ** Commit rank *)

(** C2.  For every total, [getCommitRank] returns the label of the first row
    of the threshold table, read from the top, whose threshold the total
    reaches, and "Bottom 30%" when it reaches none; each label is returned
    exactly on its interval, and the boundary values 5000, 4999 and 0 map to
    "Top 0.5%-1%", "Top 1%-3%" and "Bottom 30%". *)
Theorem getCommitRank_table (totalCommits : Z) :
  getCommitRank totalCommits = first_match rank_table "Bottom 30%" totalCommits
  /\ (getCommitRank totalCommits = "Top 0.5%-1%" <-> 5000 <= totalCommits)
  /\ (getCommitRank totalCommits = "Top 1%-3%" <-> 2000 <= totalCommits < 5000)
  /\ (getCommitRank totalCommits = "Top 5%-10%" <-> 1000 <= totalCommits < 2000)
  /\ (getCommitRank totalCommits = "Top 10%-15%" <-> 500 <= totalCommits < 1000)
  /\ (getCommitRank totalCommits = "Top 25%-30%" <-> 200 <= totalCommits < 500)
  /\ (getCommitRank totalCommits = "Median 50%" <-> 50 <= totalCommits < 200)
  /\ (getCommitRank totalCommits = "Bottom 30%" <-> totalCommits < 50)
  /\ getCommitRank 5000 = "Top 0.5%-1%"
  /\ getCommitRank 4999 = "Top 1%-3%"
  /\ getCommitRank 0 = "Bottom 30%".
Proof.
  assert (Hc : getCommitRank 5000 = "Top 0.5%-1%"
               /\ getCommitRank 4999 = "Top 1%-3%"
               /\ getCommitRank 0 = "Bottom 30%") by (repeat split; reflexivity).
  revert Hc.
  generalize (getCommitRank 5000), (getCommitRank 4999), (getCommitRank 0).
  intros r5000 r4999 r0 (H1 & H2 & H3).
  unfold getCommitRank, first_match, rank_table. rewrite !Z.geb_leb.
  repeat match goal with
         | |- context [?a <=? totalCommits] =>
             destruct (Z.leb_spec a totalCommits); cbv beta iota
         end;
    repeat split; intros; trivial; try lia; try discriminate.
Qed.

Lemma getCommitRank_table_witness :
  getCommitRank 1999 = "Top 5%-10%" /\ getCommitRank 50 = "Median 50%".
Proof.
  split.
  - apply (getCommitRank_table 1999). lia.
  - apply (getCommitRank_table 50). lia.
Defined.

(** ** Stars *)

Lemma totalStars_from (repos : list Repository) (acc : Z) :
  fold_left (fun a repo => a + repo.(stargazerCount)) repos acc
  = acc + sum_stars repos.
Proof.
  revert acc. induction repos as [|r repos IH]; intros acc; simpl.
  - lia.
  - rewrite IH. lia.
Qed.

(** C6.  Whenever the handler answers with a stats object, [starsEarned] is
    the sum of [stargazerCount] over all fetched repositories, and 0 when
    none was fetched. *)
Theorem starsEarned_is_sum
    (engine_sort : JS.EngineSort)
    (legacy_parse : string -> option Z) (LocalTZA : Z -> Z)
    (octokit_graphql : string -> Exc Response)
    (request : Request) (username : string) (userData : User) :
  Answered octokit_graphql request username userData ->
  contribution_days legacy_parse userData <> [] ->
  exists stats,
    GET engine_sort legacy_parse LocalTZA octokit_graphql request []
      = (inr {| body := StatsBody stats; status := 200 |}, [username])
    /\ stats.(starsEarned) = sum_stars userData.(repositories).(nodes)
    /\ (userData.(repositories).(nodes) = [] -> stats.(starsEarned) = 0).
Proof.
  intros Ha Hne.
  destruct (build_stats_ok engine_sort legacy_parse LocalTZA userData ([] ++ [username]) Hne)
    as (day & month & _ & _ & Hb).
  eexists. split.
  - rewrite (GET_answered _ _ _ _ _ _ _ _ Ha), Hb. reflexivity.
  - cbn [starsEarned]. unfold totalStars. rewrite totalStars_from. split.
    + lia.
    + intros ->. reflexivity.
Qed.

Lemma sample_answered :
  Answered (upstream_of sample_user) (request_for "octocat") "octocat" sample_user.
Proof. repeat split. discriminate. Qed.

Lemma starsEarned_is_sum_witness :
  exists stats,
    GET sample_sort no_legacy utc (upstream_of sample_user) (request_for "octocat") []
      = (inr {| body := StatsBody stats; status := 200 |}, ["octocat"])
    /\ stats.(starsEarned) = 13
    /\ (sample_repos = [] -> stats.(starsEarned) = 0).
Proof.
  apply (starsEarned_is_sum sample_sort no_legacy utc (upstream_of sample_user)
           (request_for "octocat") "octocat" sample_user).
  - exact sample_answered.
  - vm_compute. discriminate.
Defined.

(** ** Errors *)

Lemma missing_username_is_400_at
    (engine_sort : JS.EngineSort)
    (legacy_parse : string -> option Z) (LocalTZA : Z -> Z)
    (octokit_graphql : string -> Exc Response)
    (request : Request) (calls : World) :
  URLSearchParams_get request.(searchParams) "username" = None
  \/ URLSearchParams_get request.(searchParams) "username" = Some "" ->
  GET engine_sort legacy_parse LocalTZA octokit_graphql request calls
  = (inr {| body := ErrorBody "Username parameter is required"; status := 400 |},
     calls).
Proof.
  intros [H|H]; unfold GET, try_catch, GET_try; rewrite H; reflexivity.
Qed.

(** C8.  A request whose [username] parameter is missing or empty is answered
    with status 400 and an error body, and the log of upstream calls is left
    as it was: no call is made. *)
Theorem missing_username_is_400
    (engine_sort : JS.EngineSort)
    (legacy_parse : string -> option Z) (LocalTZA : Z -> Z)
    (octokit_graphql : string -> Exc Response)
    (request : Request) (calls : World) :
  URLSearchParams_get request.(searchParams) "username" = None
  \/ URLSearchParams_get request.(searchParams) "username" = Some "" ->
  GET engine_sort legacy_parse LocalTZA octokit_graphql request calls
  = (inr {| body := ErrorBody "Username parameter is required"; status := 400 |},
     calls).
Proof.
  intros [H|H]; unfold GET, try_catch, GET_try; rewrite H; reflexivity.
Qed.

Lemma missing_username_is_400_witness :
  GET sample_sort no_legacy utc (upstream_of sample_user)
      {| searchParams := [("user", "octocat"); ("username", "")] |} []
  = (inr {| body := ErrorBody "Username parameter is required"; status := 400 |},
     []).
Proof.
  apply (missing_username_is_400 sample_sort no_legacy utc (upstream_of sample_user)
           {| searchParams := [("user", "octocat"); ("username", "")] |} []).
  right. reflexivity.
Defined.

(** C10.  When no day is left after the year filter, the handler builds no
    stats object: reading the first entry of the empty weekday tally throws,
    the [catch] block takes over, and the answer is status 500 with the
    error's message. *)
Theorem empty_calendar_is_500
    (engine_sort : JS.EngineSort)
    (legacy_parse : string -> option Z) (LocalTZA : Z -> Z)
    (octokit_graphql : string -> Exc Response)
    (request : Request) (username : string) (userData : User) (calls : World) :
  Answered octokit_graphql request username userData ->
  contribution_days legacy_parse userData = [] ->
  peak_entry (dailyCommits (contribution_days legacy_parse userData)) = None
  /\ peak_entry (monthlyCommits legacy_parse LocalTZA
                   (contribution_days legacy_parse userData)) = None
  /\ GET engine_sort legacy_parse LocalTZA octokit_graphql request calls
     = (inr {| body := ErrorBody "Cannot read properties of undefined (reading '0')";
               status := 500 |},
        calls ++ [username]).
Proof.
  intros Ha He. rewrite He. repeat split.
  rewrite (GET_answered _ _ _ _ _ _ _ _ Ha), build_stats_empty by exact He.
  reflexivity.
Qed.

Lemma empty_calendar_is_500_witness :
  GET sample_sort no_legacy utc
      (upstream_of (user_of 12 [day_of 4 "2023-12-30" 6; day_of 8 "2023-12-31" 0] []))
      (request_for "octocat") []
  = (inr {| body := ErrorBody "Cannot read properties of undefined (reading '0')";
            status := 500 |},
     ["octocat"]).
Proof.
  apply (empty_calendar_is_500 sample_sort no_legacy utc
           (upstream_of (user_of 12 [day_of 4 "2023-12-30" 6; day_of 8 "2023-12-31" 0] []))
           (request_for "octocat") "octocat"
           (user_of 12 [day_of 4 "2023-12-30" 6; day_of 8 "2023-12-31" 0] []) []).
  - repeat split. discriminate.
  - vm_compute. reflexivity.
Defined.

Lemma GET_catch_is_500 (e : JsError) (w : World) :
  exists response, GET_catch e w = (inr response, w) /\ is_error response 500.
Proof.
  unfold GET_catch, ret. eexists. split; [reflexivity|].
  split; [reflexivity|]. cbn [body json].
  destruct (message e =? "")%string eqn:E.
  - eexists. split; [reflexivity|discriminate].
  - eexists. split; [reflexivity|]. now apply String.eqb_neq.
Qed.

(** ** Longest streak *)

Section Streak.
Implicit Types (days run : list ContributionDay) (d : ContributionDay).

Lemma ends_with_run_0 days : ends_with_run days 0.
Proof. exists days, []. rewrite app_nil_r. repeat split. constructor. Qed.

Lemma ends_with_run_is_run days n : ends_with_run days n -> is_run days n.
Proof.
  intros (before & run & -> & Hl & Ha).
  exists before, run, []. rewrite app_nil_r. auto.
Qed.

Lemma ends_with_run_snoc days d n :
  ends_with_run days n -> active d -> ends_with_run (days ++ [d]) (S n).
Proof.
  intros (before & run & -> & Hl & Ha) Hd.
  exists before, (run ++ [d]). rewrite app_assoc. split; [reflexivity|]. split.
  - rewrite length_app. simpl. lia.
  - apply Forall_app. split; [assumption|]. now constructor.
Qed.

Lemma ends_with_run_snoc_inv days d n :
  ends_with_run (days ++ [d]) n ->
  n = O \/ (active d /\ exists n', n = S n' /\ ends_with_run days n').
Proof.
  intros (before & run & He & Hl & Ha).
  destruct run as [|x run'] using rev_ind; [left; now subst|]. clear IHrun'.
  right. rewrite app_assoc in He. apply app_inj_tail in He as [-> <-].
  apply Forall_app in Ha as [Ha Hx]. split.
  - now inversion Hx.
  - exists (List.length run'). rewrite length_app in Hl. simpl in Hl. split; [lia|].
    now exists before, run'.
Qed.

Lemma is_run_snoc days d n : is_run days n -> is_run (days ++ [d]) n.
Proof.
  intros (before & run & after & -> & Hl & Ha).
  exists before, run, (after ++ [d]). rewrite <- !app_assoc. auto.
Qed.

Lemma is_run_snoc_inv days d n :
  is_run (days ++ [d]) n -> is_run days n \/ ends_with_run (days ++ [d]) n.
Proof.
  intros (before & run & after & He & Hl & Ha).
  destruct after as [|x after'] using rev_ind.
  - right. rewrite app_nil_r in He. now exists before, run.
  - left. clear IHafter'. rewrite !app_assoc in He.
    apply app_inj_tail in He as [-> _].
    exists before, run, after'. rewrite <- app_assoc. auto.
Qed.

Lemma is_run_length days n : is_run days n -> (n <= List.length days)%nat.
Proof.
  intros (before & run & after & -> & Hl & _). rewrite !length_app. lia.
Qed.

(** The loop invariant: [currentStreak] is the length of the longest run
    that ends the days seen so far, [maxStreak] the length of the longest
    run among them. *)
Lemma streak_invariant days :
  forall c m, fold_left streak_step days (0, 0) = (c, m) ->
  0 <= c <= m
  /\ ends_with_run days (Z.to_nat c)
  /\ (forall n, ends_with_run days n -> Z.of_nat n <= c)
  /\ is_run days (Z.to_nat m)
  /\ (forall n, is_run days n -> Z.of_nat n <= m).
Proof.
  induction days as [|d days IH] using rev_ind; intros c m Hf.
  - injection Hf as <- <-. repeat split; try lia.
    + apply ends_with_run_0.
    + intros n (before & run & He & Hl & _).
      symmetry in He. apply app_eq_nil in He as [_ ->]. simpl in Hl. lia.
    + apply ends_with_run_is_run, ends_with_run_0.
    + intros n H. apply is_run_length in H. simpl in H. lia.
  - rewrite fold_left_app in Hf. simpl in Hf.
    destruct (fold_left streak_step days (0, 0)) as [c0 m0].
    destruct (IH c0 m0 eq_refl) as (Hc & He & Hemax & Hr & Hrmax).
    unfold streak_step in Hf.
    destruct (Z.gtb_spec (contributionCount d) 0) as [Hpos|Hnpos];
      injection Hf as <- <-.
    + assert (Hact : active d) by (unfold active; lia).
      assert (He' : ends_with_run (days ++ [d]) (Z.to_nat (c0 + 1))).
      { replace (Z.to_nat (c0 + 1)) with (S (Z.to_nat c0)) by lia.
        now apply ends_with_run_snoc. }
      assert (Hemax' : forall n, ends_with_run (days ++ [d]) n -> Z.of_nat n <= c0 + 1).
      { intros n Hn. apply ends_with_run_snoc_inv in Hn as [->|(_ & n' & -> & Hn')].
        - lia.
        - apply Hemax in Hn'. lia. }
      repeat split; try lia; trivial.
      * destruct (Z.max_spec m0 (c0 + 1)) as [[_ ->]|[_ ->]].
        -- now apply ends_with_run_is_run.
        -- now apply is_run_snoc.
      * intros n Hn. apply is_run_snoc_inv in Hn as [Hn|Hn].
        -- apply Hrmax in Hn. lia.
        -- apply Hemax' in Hn. lia.
    + assert (Hemax' : forall n, ends_with_run (days ++ [d]) n -> Z.of_nat n <= 0).
      { intros n Hn. apply ends_with_run_snoc_inv in Hn as [->|(Hact & _)].
        - lia.
        - unfold active in Hact. lia. }
      repeat split; try lia; trivial.
      * apply ends_with_run_0.
      * now apply is_run_snoc.
      * intros n Hn. apply is_run_snoc_inv in Hn as [Hn|Hn].
        -- now apply Hrmax.
        -- apply Hemax' in Hn. lia.
Qed.

Lemma max_streak_spec days :
  0 <= max_streak days
  /\ is_run days (Z.to_nat (max_streak days))
  /\ (forall n, is_run days n -> Z.of_nat n <= max_streak days).
Proof.
  unfold max_streak.
  destruct (fold_left streak_step days (0, 0)) as [c m] eqn:Hf.
  destruct (streak_invariant days c m Hf) as (Hc & _ & _ & Hr & Hmax).
  simpl. repeat split; trivial. lia.
Qed.

Lemma max_streak_all_zero days :
  (forall d, In d days -> d.(contributionCount) = 0) -> max_streak days = 0.
Proof.
  intros Hz. destruct (max_streak_spec days) as (H0 & Hr & _).
  destruct Hr as (before & run & after & He & Hl & Ha).
  destruct run as [|x run].
  - simpl in Hl. lia.
  - exfalso. inversion Ha as [|? ? Hx _]; subst.
    unfold active in Hx. rewrite (Hz x) in Hx; [lia|].
    apply in_or_app. right. now left.
Qed.

Lemma max_streak_no_zero days :
  (forall d, In d days -> 0 <= d.(contributionCount)) ->
  (forall d, In d days -> d.(contributionCount) <> 0) ->
  max_streak days = Z.of_nat (List.length days).
Proof.
  intros Hnn Hnz. destruct (max_streak_spec days) as (H0 & Hr & Hmax).
  apply is_run_length in Hr.
  assert (Hall : is_run days (List.length days)).
  { exists [], days, []. rewrite app_nil_r. repeat split.
    apply Forall_forall. intros d Hd. unfold active.
    specialize (Hnn d Hd). specialize (Hnz d Hd). lia. }
  apply Hmax in Hall. lia.
Qed.
End Streak.

Example max_streak_sample :
  max_streak [day_of 2 "2024-01-01" 1; day_of 0 "2024-01-02" 2;
              day_of 1 "2024-01-03" 3; day_of 4 "2024-01-04" 4;
              day_of 9 "2024-01-05" 5; day_of 0 "2024-01-06" 6;
              day_of 3 "2024-01-07" 0] = 3.
Proof. reflexivity. Qed.

(** C1.  Whenever the handler answers with a stats object, [longestStreak]
    is the length of the longest run of consecutive days, in list order,
    whose [contributionCount] is positive: some run has that length and no
    run is longer.  It is 0 when every count is 0, and the number of days
    when no count is 0 (counts being non-negative). *)
Theorem longestStreak_is_longest_run
    (engine_sort : JS.EngineSort)
    (legacy_parse : string -> option Z) (LocalTZA : Z -> Z)
    (octokit_graphql : string -> Exc Response)
    (request : Request) (username : string) (userData : User) :
  Answered octokit_graphql request username userData ->
  contribution_days legacy_parse userData <> [] ->
  exists stats,
    GET engine_sort legacy_parse LocalTZA octokit_graphql request []
      = (inr {| body := StatsBody stats; status := 200 |}, [username])
    /\ 0 <= stats.(longestStreak)
    /\ is_run (contribution_days legacy_parse userData)
              (Z.to_nat stats.(longestStreak))
    /\ (forall n, is_run (contribution_days legacy_parse userData) n ->
                  Z.of_nat n <= stats.(longestStreak))
    /\ ((forall d, In d (contribution_days legacy_parse userData) ->
                   d.(contributionCount) = 0) ->
        stats.(longestStreak) = 0)
    /\ ((forall d, In d (contribution_days legacy_parse userData) ->
                   0 <= d.(contributionCount)) ->
        (forall d, In d (contribution_days legacy_parse userData) ->
                   d.(contributionCount) <> 0) ->
        stats.(longestStreak)
        = Z.of_nat (List.length (contribution_days legacy_parse userData))).
Proof.
  intros Ha Hne.
  destruct (build_stats_ok engine_sort legacy_parse LocalTZA userData ([] ++ [username]) Hne)
    as (day & month & _ & _ & Hb).
  eexists. split.
  - rewrite (GET_answered _ _ _ _ _ _ _ _ Ha), Hb. reflexivity.
  - cbn [longestStreak].
    destruct (max_streak_spec (contribution_days legacy_parse userData))
      as (H0 & Hr & Hmax).
    repeat split; trivial.
    + apply max_streak_all_zero.
    + apply max_streak_no_zero.
Qed.

Lemma longestStreak_is_longest_run_witness :
  exists stats,
    GET sample_sort no_legacy utc (upstream_of sample_user) (request_for "octocat") []
      = (inr {| body := StatsBody stats; status := 200 |}, ["octocat"])
    /\ stats.(longestStreak) = 2.
Proof.
  destruct (longestStreak_is_longest_run sample_sort no_legacy utc (upstream_of sample_user)
              (request_for "octocat") "octocat" sample_user)
    as (stats & Hg & _).
  - exact sample_answered.
  - vm_compute. discriminate.
  - exists stats. split; [exact Hg|].
    vm_compute in Hg. injection Hg as <-. reflexivity.
Defined.

(** ** Dates and the year filter *)

Lemma DayFromYear_succ y :
  JS.DayFromYear (y + 1) = JS.DayFromYear y + JS.DaysInYear y.
Proof.
  unfold JS.DayFromYear, JS.DaysInYear.
  replace (y + 1 - 1970) with (y - 1969) by lia.
  replace (y + 1 - 1969) with (y - 1968) by lia.
  replace (y + 1 - 1901) with (y - 1900) by lia.
  replace (y + 1 - 1601) with (y - 1600) by lia.
  destruct (Z.eqb_spec (y mod 4) 0), (Z.eqb_spec (y mod 100) 0),
    (Z.eqb_spec (y mod 400) 0); cbn [negb];
    Z.div_mod_to_equations; lia.
Qed.

Lemma DayFromYear_mono y y' : y <= y' -> JS.DayFromYear y <= JS.DayFromYear y'.
Proof. unfold JS.DayFromYear. intros. Z.div_mod_to_equations. lia. Qed.

(** [YearFromTime] meets its definition in ECMAScript: the year whose first
    day is the last one not after the day of [t]. *)
Lemma YearFromTime_spec t :
  JS.DayFromYear (JS.YearFromTime t) <= JS.Day t
  < JS.DayFromYear (JS.YearFromTime t + 1).
Proof.
  unfold JS.YearFromTime. set (d := JS.Day t). clearbody d. cbv zeta.
  destruct (Z.ltb_spec d (JS.DayFromYear (1970 + 400 * d / 146097))).
  - replace (1970 + 400 * d / 146097 - 1 + 1) with (1970 + 400 * d / 146097) by lia.
    split; [|lia]. unfold JS.DayFromYear in *. Z.div_mod_to_equations. lia.
  - destruct (Z.leb_spec (JS.DayFromYear (1970 + 400 * d / 146097 + 1)) d).
    + split; [lia|]. unfold JS.DayFromYear in *. Z.div_mod_to_equations. lia.
    + lia.
Qed.

Lemma MonthFromTime_range t : 0 <= JS.MonthFromTime t <= 11.
Proof.
  unfold JS.MonthFromTime. cbv zeta.
  repeat match goal with
         | |- context [?a <? ?b] => destruct (a <? b)
         end; lia.
Qed.

Lemma DaysInYear_cases y : JS.DaysInYear y = 365 \/ JS.DaysInYear y = 366.
Proof.
  unfold JS.DaysInYear.
  destruct (y mod 4 =? 0), (y mod 100 =? 0), (y mod 400 =? 0); cbn [negb]; auto.
Qed.

(** A day of month [m] (0 to 11) of year [y] lies within the year. *)
Lemma MakeDay_within_year y m d :
  0 <= m <= 11 -> 1 <= d <= JS.days_in_month y m ->
  JS.DayFromYear y <= JS.MakeDay y m d < JS.DayFromYear (y + 1).
Proof.
  intros Hm Hd. rewrite DayFromYear_succ.
  unfold JS.MakeDay, JS.days_in_month in *.
  destruct (DaysInYear_cases y) as [E|E]; rewrite E in *; cbn [Z.eqb Pos.eqb] in *;
    assert (Hc : m = 0 \/ m = 1 \/ m = 2 \/ m = 3 \/ m = 4 \/ m = 5 \/ m = 6
                 \/ m = 7 \/ m = 8 \/ m = 9 \/ m = 10 \/ m = 11) by lia;
    repeat (destruct Hc as [->|Hc]); try subst m; cbn [JS.month_start] in *; lia.
Qed.

Lemma MakeDay_boundary y m d :
  0 <= m <= 11 -> 1 <= d <= JS.days_in_month y m ->
  (19723 <= JS.MakeDay y m d <-> 2024 <= y).
Proof.
  intros Hm Hd. pose proof (MakeDay_within_year y m d Hm Hd) as [Hlo Hhi].
  assert (E : JS.DayFromYear 2024 = 19723) by reflexivity.
  split; intros H.
  - destruct (Z.le_gt_cases 2024 y) as [|Hlt]; [assumption|].
    pose proof (DayFromYear_mono (y + 1) 2024 ltac:(lia)). lia.
  - pose proof (DayFromYear_mono 2024 y H). lia.
Qed.

Lemma digit_of_ascii_range c a : JS.digit_of_ascii c = Some a -> 0 <= a <= 9.
Proof.
  unfold JS.digit_of_ascii. cbv zeta.
  destruct (Z.leb_spec 48 (Z.of_nat (nat_of_ascii c))),
    (Z.leb_spec (Z.of_nat (nat_of_ascii c)) 57); cbn [andb]; intros [=]; lia.
Qed.

Lemma parse_iso_date_range s y m d :
  JS.parse_iso_date s = Some (y, m, d) ->
  0 <= y <= 9999 /\ 1 <= m <= 12 /\ 1 <= d <= JS.days_in_month y (m - 1).
Proof.
  unfold JS.parse_iso_date.
  destruct (list_ascii_of_string s) as [|y1 [|y2 [|y3 [|y4 [|p [|m1 [|m2 [|q [|d1 [|d2 [|]]]]]]]]]]];
    try discriminate.
  destruct (JS.digit_of_ascii y1) as [a|] eqn:Ea; [|discriminate].
  destruct (JS.digit_of_ascii y2) as [b|] eqn:Eb; [|discriminate].
  destruct (JS.digit_of_ascii y3) as [c|] eqn:Ec; [|discriminate].
  destruct (JS.digit_of_ascii y4) as [e|] eqn:Ee; [|discriminate].
  destruct (JS.digit_of_ascii m1) as [f|] eqn:Ef; [|discriminate].
  destruct (JS.digit_of_ascii m2) as [g|] eqn:Eg; [|discriminate].
  destruct (JS.digit_of_ascii d1) as [h|] eqn:Eh; [|discriminate].
  destruct (JS.digit_of_ascii d2) as [i|] eqn:Ei; [|discriminate].
  cbv zeta.
  destruct (_ && _) eqn:Hc; [|discriminate]. intros Heq.
  assert (y = 1000 * a + 100 * b + 10 * c + e /\ m = 10 * f + g /\ d = 10 * h + i)
    as (-> & -> & ->) by (repeat split; congruence).
  clear Heq.
  apply digit_of_ascii_range in Ea, Eb, Ec, Ee.
  repeat (apply andb_prop in Hc as [Hc ?]).
  repeat match goal with H : (_ <=? _) = true |- _ => apply Z.leb_le in H end.
  repeat split; try lia; assumption.
Qed.

(** On a date of the form [YYYY-MM-DD], the handler's comparison of time
    values is the comparison of calendar dates with January 1, 2024. *)
Lemma filter_test_is_boundary legacy_parse (day : ContributionDay) :
  JS.Date_ge (Date_of legacy_parse day.(date)) (Date_of legacy_parse "2024-01-01")
  = on_or_after_boundary legacy_parse day.
Proof.
  unfold on_or_after_boundary, Date_of.
  replace (JS.Date_parse legacy_parse "2024-01-01") with (Some 1704067200000)
    by (vm_compute; reflexivity).
  unfold JS.Date_parse.
  destruct (JS.parse_iso_date day.(date)) as [[[y m] d]|] eqn:Ep.
  - apply parse_iso_date_range in Ep as (Hy & Hm & Hd).
    pose proof (MakeDay_boundary y (m - 1) d ltac:(lia) Hd) as Hb.
    unfold JS.Date_ge, JS.MakeDate, JS.msPerDay, civil_leb.
    apply eq_true_iff_eq. rewrite Z.leb_le, !orb_true_iff, !andb_true_iff.
    rewrite !orb_true_iff, !andb_true_iff, !Z.ltb_lt, !Z.eqb_eq, Z.leb_le.
    lia.
  - destruct (legacy_parse day.(date)); reflexivity.
Qed.

Lemma contribution_days_filter legacy_parse (userData : User) :
  contribution_days legacy_parse userData
  = filter (on_or_after_boundary legacy_parse) (all_days userData).
Proof.
  unfold contribution_days, all_days. apply filter_ext.
  intros day. apply filter_test_is_boundary.
Qed.

(** C7.  Whenever the handler answers with a stats object, [calendarData] is
    the flattened list of the fetched days, in order, restricted to the days
    on or after January 1, 2024; a day before the boundary is not in it; and
    the streak and both peaks are computed from that list. *)
Theorem calendarData_is_filtered
    (engine_sort : JS.EngineSort)
    (legacy_parse : string -> option Z) (LocalTZA : Z -> Z)
    (octokit_graphql : string -> Exc Response)
    (request : Request) (username : string) (userData : User) :
  Answered octokit_graphql request username userData ->
  contribution_days legacy_parse userData <> [] ->
  exists stats,
    GET engine_sort legacy_parse LocalTZA octokit_graphql request []
      = (inr {| body := StatsBody stats; status := 200 |}, [username])
    /\ stats.(calendarData)
       = filter (on_or_after_boundary legacy_parse) (all_days userData)
    /\ (forall day y m d,
          In day stats.(calendarData) ->
          JS.parse_iso_date day.(date) = Some (y, m, d) -> 2024 <= y)
    /\ (forall day y m d,
          In day (all_days userData) ->
          JS.parse_iso_date day.(date) = Some (y, m, d) -> 2024 <= y ->
          In day stats.(calendarData))
    /\ stats.(longestStreak) = max_streak stats.(calendarData)
    /\ (exists day month,
          peak_entry (dailyCommits stats.(calendarData)) = Some day
          /\ peak_entry (monthlyCommits legacy_parse LocalTZA stats.(calendarData))
             = Some month
          /\ stats.(mostActiveDay).(commits)
             = average_per_day (snd day) stats.(calendarData)
          /\ stats.(mostActiveMonth).(commits) = snd month).
Proof.
  intros Ha Hne.
  destruct (build_stats_ok engine_sort legacy_parse LocalTZA userData ([] ++ [username]) Hne)
    as (day & month & Hd & Hm & Hb).
  eexists. split.
  { rewrite (GET_answered _ _ _ _ _ _ _ _ Ha), Hb. reflexivity. }
  cbn [calendarData longestStreak mostActiveDay mostActiveMonth commits].
  split; [apply contribution_days_filter|].
  rewrite contribution_days_filter in *.
  assert (Hiso : forall dd y m d, JS.parse_iso_date dd.(date) = Some (y, m, d) ->
                 (on_or_after_boundary legacy_parse dd = true <-> 2024 <= y)).
  { intros dd y m d Hp. unfold on_or_after_boundary. rewrite Hp.
    apply parse_iso_date_range in Hp as (_ & Hm' & Hd').
    unfold civil_leb.
    rewrite !orb_true_iff, !andb_true_iff, !orb_true_iff, !andb_true_iff,
      !Z.ltb_lt, !Z.eqb_eq, Z.leb_le. lia. }
  repeat split.
  - intros dd y m d Hin Hp. apply filter_In in Hin as [_ Hk].
    now apply (Hiso dd y m d Hp).
  - intros dd y m d Hin Hp Hy. apply filter_In. split; [assumption|].
    now apply (Hiso dd y m d Hp).
  - exists day, month. repeat split; assumption.
Qed.

Lemma calendarData_is_filtered_witness :
  exists stats,
    GET sample_sort no_legacy utc (upstream_of sample_user) (request_for "octocat") []
      = (inr {| body := StatsBody stats; status := 200 |}, ["octocat"])
    /\ stats.(calendarData)
       = [day_of 5 "2024-01-01" 1; day_of 3 "2024-01-02" 2;
          day_of 0 "2024-01-03" 3; day_of 2 "2024-01-04" 4].
Proof.
  destruct (calendarData_is_filtered sample_sort no_legacy utc (upstream_of sample_user)
              (request_for "octocat") "octocat" sample_user)
    as (stats & Hg & Hc & _).
  - exact sample_answered.
  - vm_compute. discriminate.
  - exists stats. split; [exact Hg|]. rewrite Hc. vm_compute. reflexivity.
Defined.

(** ** Lists: order of occurrence *)

Section Before.
Context {A : Type}.
Implicit Types (l : list A) (a b : A).

Lemma before_cons l x a b : before l a b -> before (x :: l) a b.
Proof. intros (l1 & l2 & l3 & ->). now exists (x :: l1), l2, l3. Qed.

Lemma before_head l a b : In b l -> before (a :: l) a b.
Proof.
  intros H. apply in_split in H as (l2 & l3 & ->). now exists [], l2, l3.
Qed.

Lemma before_In l a b : before l a b -> In a l /\ In b l.
Proof.
  intros (l1 & l2 & l3 & ->). split.
  - apply in_or_app. right. now left.
  - apply in_or_app. right. right. apply in_or_app. right. now left.
Qed.

Lemma before_cons_inv l x a b :
  before (x :: l) a b -> (x = a /\ In b l) \/ before l a b.
Proof.
  intros (l1 & l2 & l3 & He). destruct l1 as [|y l1]; simpl in He.
  - injection He as -> ->. left. split; [reflexivity|].
    apply in_or_app. right. now left.
  - injection He as -> ->. right. now exists l1, l2, l3.
Qed.

Lemma before_app_inv l l' a b :
  before (l ++ l') a b ->
  before l a b \/ (In a l /\ In b l') \/ before l' a b.
Proof.
  induction l as [|x l IH]; simpl; intros H.
  - now right; right.
  - apply before_cons_inv in H as [[-> Hb]|H].
    + apply in_app_or in Hb as [Hb|Hb].
      * left. now apply before_head.
      * right. left. split; [now left|assumption].
    + destruct (IH H) as [H1|[[H1 H2]|H1]].
      * left. now apply before_cons.
      * right. left. split; [now right|assumption].
      * now right; right.
Qed.

Lemma before_filter (p : A -> bool) l a b :
  before (filter p l) a b -> before l a b.
Proof.
  induction l as [|x l IH]; simpl; intros H.
  - destruct H as (l1 & l2 & l3 & He). now destruct l1.
  - destruct (p x).
    + apply before_cons_inv in H as [[-> Hb]|H].
      * apply before_head. now apply filter_In in Hb.
      * apply before_cons. now apply IH.
    + apply before_cons. now apply IH.
Qed.

Lemma before_split_tail l l1 l2 e x :
  l = l1 ++ e :: l2 -> In x l2 -> before l e x.
Proof.
  intros -> H. apply in_split in H as (l3 & l4 & ->). now exists l1, l3, l4.
Qed.

Lemma before_NoDup_neq l a b : NoDup l -> before l a b -> a <> b.
Proof.
  intros Hn (l1 & l2 & l3 & ->) <-.
  apply NoDup_remove_2 in Hn. apply Hn.
  apply in_or_app. right. apply in_or_app. right. now left.
Qed.
End Before.

Lemma before_map {A B} (f : A -> B) (l : list A) a b :
  before l a b -> before (map f l) (f a) (f b).
Proof.
  intros (l1 & l2 & l3 & ->). exists (map f l1), (map f l2), (map f l3).
  now rewrite !map_app, !map_cons, !map_app, !map_cons.
Qed.

(** ** The stable sort *)

Section SortKey.
Context {A : Type} (cmp : A -> A -> Z) (key : A -> Z).
Hypothesis cmp_key : forall a b, cmp a b = key a - key b.

Lemma sort_insert_In x s y : In y (JS.sort_insert cmp x s) <-> y = x \/ In y s.
Proof.
  split; intros H.
  - apply (Permutation_in _ (sort_insert_perm cmp x s)) in H. destruct H; auto.
  - apply (Permutation_in _ (Permutation_sym (sort_insert_perm cmp x s))).
    destruct H as [->|H]; [now left|now right].
Qed.

(** The element that ends up first has the least key, and is the first
    of the original list with that key. *)
Lemma sort_head_split (l : list A) (e : A) :
  hd_error (JS.Array_sort cmp l) = Some e ->
  exists l1 l2,
    l = l1 ++ e :: l2
    /\ (forall x, In x l1 -> key e < key x)
    /\ (forall x, In x l2 -> key e <= key x).
Proof.
  revert e. induction l as [|x l IH]; intros e; simpl; [discriminate|].
  destruct (JS.Array_sort cmp l) as [|y s] eqn:Es.
  - assert (l = []) as ->.
    { apply Permutation_nil. rewrite <- Es. apply Array_sort_perm. }
    simpl. intros [= <-]. exists [], []. repeat split; intros ? [].
  - destruct (IH y eq_refl) as (l1 & l2 & -> & H1 & H2).
    simpl. rewrite cmp_key. destruct (Z.gtb_spec (key x - key y) 0).
    + intros [= <-]. exists (x :: l1), l2. repeat split; trivial.
      intros z [<-|Hz]; [lia|auto].
    + intros [= <-]. exists [], (l1 ++ y :: l2). repeat split.
      * intros ? [].
      * intros z Hz. apply in_app_or in Hz as [Hz|[<-|Hz]].
        -- specialize (H1 z Hz). lia.
        -- lia.
        -- specialize (H2 z Hz). lia.
Qed.

Lemma sorted_stably_cons l x a b :
  sorted_stably key l a b -> sorted_stably key (x :: l) a b.
Proof.
  intros [H|[H1 H2]]; [now left|right]. split; [assumption|now apply before_cons].
Qed.

Lemma StronglySorted_weaken (P Q : A -> A -> Prop) (s : list A) :
  (forall a b, P a b -> Q a b) -> StronglySorted P s -> StronglySorted Q s.
Proof.
  intros HPQ. induction 1 as [|a s Hs IH Hf]; constructor; trivial.
  eapply Forall_impl; [|exact Hf]. intros b. apply HPQ.
Qed.

Lemma sort_insert_sorted l x (s : list A) :
  StronglySorted (sorted_stably key l) s ->
  (forall y, In y s -> In y l) ->
  StronglySorted (sorted_stably key (x :: l)) (JS.sort_insert cmp x s).
Proof.
  induction 1 as [|y s Hs IH Hf]; intros Hin; simpl.
  - repeat constructor.
  - rewrite cmp_key. destruct (Z.gtb_spec (key x - key y) 0).
    + constructor.
      * apply IH. intros z Hz. apply Hin. now right.
      * apply Forall_forall. intros z Hz. apply sort_insert_In in Hz as [->|Hz].
        -- left. lia.
        -- apply sorted_stably_cons. rewrite Forall_forall in Hf. now apply Hf.
    + constructor.
      * apply (StronglySorted_weaken (sorted_stably key l)).
        -- intros a b. apply sorted_stably_cons.
        -- now constructor.
      * apply Forall_forall. intros z Hz.
        assert (Hyz : key y <= key z).
        { destruct Hz as [<-|Hz]; [lia|].
          rewrite Forall_forall in Hf. destruct (Hf z Hz) as [?|[? _]]; lia. }
        destruct (Z.eq_dec (key x) (key z)) as [E|E].
        -- right. split; [assumption|]. apply before_head. now apply Hin.
        -- left. lia.
Qed.

Lemma Array_sort_stable (l : list A) :
  StronglySorted (sorted_stably key l) (JS.Array_sort cmp l).
Proof.
  induction l as [|x l IH]; simpl; [constructor|].
  apply sort_insert_sorted; [assumption|].
  intros y Hy. eapply Permutation_in; [apply Array_sort_perm|exact Hy].
Qed.

Lemma Array_sort_ascending (l : list A) :
  StronglySorted (fun a b => key a <= key b) (JS.Array_sort cmp l).
Proof.
  apply (StronglySorted_weaken (sorted_stably key l)); [|apply Array_sort_stable].
  intros a b [H|[H _]]; lia.
Qed.
End SortKey.

(** ** Tallies *)

Lemma distinct_In (l : list string) (k : string) : In k (distinct l) <-> In k l.
Proof.
  induction l as [|a l IH]; simpl; [reflexivity|].
  rewrite filter_In, IH, negb_true_iff, String.eqb_neq.
  destruct (string_dec a k) as [->|Hn]; [tauto|].
  split; [tauto|]. intros [H|H]; [tauto|]. right. split; [assumption|congruence].
Qed.

Lemma distinct_NoDup (l : list string) : NoDup (distinct l).
Proof.
  induction l as [|a l IH]; simpl; constructor.
  - rewrite filter_In, negb_true_iff, String.eqb_neq. tauto.
  - now apply NoDup_filter.
Qed.

Lemma distinct_snoc (l : list string) (k : string) :
  distinct (l ++ [k]) = distinct l ++ (if in_dec string_dec k l then [] else [k]).
Proof.
  induction l as [|a l IH]; simpl; [reflexivity|].
  rewrite IH, filter_app. f_equal. f_equal.
  destruct (string_dec a k) as [->|Hn].
  - destruct (in_dec string_dec k l); simpl; [reflexivity|].
    now rewrite String.eqb_refl.
  - destruct (in_dec string_dec k l); simpl; [reflexivity|].
    apply String.eqb_neq in Hn. rewrite String.eqb_sym in Hn. now rewrite Hn.
Qed.

Lemma in_dec_distinct {B} (l : list string) (k : string) (x y : B) :
  (if in_dec string_dec k (distinct l) then x else y)
  = (if in_dec string_dec k l then x else y).
Proof.
  destruct (in_dec string_dec k (distinct l)) as [H|H],
    (in_dec string_dec k l) as [H'|H']; trivial; rewrite distinct_In in H; tauto.
Qed.

Lemma distinct_before (l : list string) (a b : string) :
  before (distinct l) a b -> first_before l a b.
Proof.
  induction l as [|x l IH]; simpl; intros H.
  - destruct H as (l1 & l2 & l3 & He). now destruct l1.
  - apply before_cons_inv in H as [[-> Hb]|H].
    + apply filter_In in Hb as [_ Hb].
      apply negb_true_iff, String.eqb_neq in Hb. split; [congruence|].
      exists [], l. split; [reflexivity|]. intros [].
    + pose proof (before_In _ _ _ H) as [Ha Hb].
      apply filter_In in Ha as [_ Ha], Hb as [_ Hb].
      apply negb_true_iff, String.eqb_neq in Ha, Hb.
      apply before_filter in H. destruct (IH H) as (Hne & l1 & l2 & -> & Hnin).
      split; [assumption|]. exists (x :: l1), l2. split; [reflexivity|].
      intros [E|E]; [congruence|contradiction].
Qed.

Lemma total_of_snoc (k k' : string) (c : Z) (kvs : list (string * Z)) :
  total_of k (kvs ++ [(k', c)])
  = total_of k kvs + (if String.eqb k' k then c else 0).
Proof.
  induction kvs as [|[a v] kvs IH]; simpl; [lia|]. rewrite IH. lia.
Qed.

Lemma total_of_absent (k : string) (kvs : list (string * Z)) :
  ~ In k (map fst kvs) -> total_of k kvs = 0.
Proof.
  induction kvs as [|[a v] kvs IH]; simpl; intros H; [reflexivity|].
  destruct (String.eqb_spec a k) as [->|Hn]; [tauto|]. rewrite IH; tauto.
Qed.

Lemma or_zero_some (v : Z) : JS.or_zero (Some v) = v.
Proof. unfold JS.or_zero. destruct (Z.eqb_spec v 0); congruence. Qed.

Lemma obj_get_map (g : string -> Z) (keys : list string) (k : string) :
  JS.obj_get (map (fun k' => (k', g k')) keys) k
  = if in_dec string_dec k keys then Some (g k) else None.
Proof.
  induction keys as [|a keys IH]; simpl; [reflexivity|].
  destruct (String.eqb_spec a k) as [->|Hn].
  - destruct (string_dec k k); [reflexivity|congruence].
  - rewrite IH. destruct (string_dec a k); [congruence|].
    destruct (in_dec string_dec k keys); reflexivity.
Qed.

Lemma obj_set_map (g g' : string -> Z) (keys : list string) (k : string) (v : Z) :
  NoDup keys -> g' k = v -> (forall k', k' <> k -> g' k' = g k') ->
  JS.obj_set (map (fun k' => (k', g k')) keys) k v
  = map (fun k' => (k', g' k'))
        (keys ++ (if in_dec string_dec k keys then [] else [k])).
Proof.
  intros Hnd Hk Hother. induction keys as [|a keys IH]; simpl.
  - now rewrite Hk.
  - apply NoDup_cons_iff in Hnd as [Ha Hnd].
    destruct (String.eqb_spec a k) as [->|Hn].
    + destruct (string_dec k k); [|congruence]. rewrite app_nil_r, Hk. f_equal.
      apply map_ext_in. intros k' Hk'. rewrite Hother; [reflexivity|congruence].
    + destruct (string_dec a k); [congruence|].
      rewrite (Hother a Hn). f_equal. rewrite (IH Hnd).
      destruct (in_dec string_dec k keys); reflexivity.
Qed.

(** The tally loop builds one property per key, in the order in which the
    keys are first met, holding the total of the key. *)
Lemma tally_pairs_eq (kvs : list (string * Z)) :
  tally_pairs kvs
  = map (fun k => (k, total_of k kvs)) (distinct (map fst kvs)).
Proof.
  unfold tally_pairs.
  induction kvs as [|[k c] kvs IH] using rev_ind; [reflexivity|].
  rewrite fold_left_app. cbn [fold_left fst snd]. rewrite IH.
  rewrite map_app. cbn [map fst]. rewrite distinct_snoc, <- in_dec_distinct.
  rewrite obj_get_map.
  apply obj_set_map.
  - apply distinct_NoDup.
  - rewrite total_of_snoc, String.eqb_refl.
    destruct (in_dec string_dec k (distinct (map fst kvs))) as [Hin|Hnin].
    + now rewrite or_zero_some.
    + rewrite total_of_absent; [reflexivity|]. now rewrite <- distinct_In.
  - intros k' Hk'. rewrite total_of_snoc.
    destruct (String.eqb_spec k k'); [congruence|lia].
Qed.

Lemma tally_is_tally_pairs key (days : list ContributionDay) :
  fold_left (tally key) days [] = tally_pairs (day_pairs key days).
Proof.
  unfold tally_pairs, day_pairs. generalize (@nil (string * Z)).
  induction days as [|d days IH]; intros o; simpl; [reflexivity|].
  rewrite <- IH. reflexivity.
Qed.

(** ** Property keys and the enumeration order *)

Lemma to_int_not_nil (z : Z) :
  Z.to_int z <> Decimal.Pos Decimal.Nil /\ Z.to_int z <> Decimal.Neg Decimal.Nil.
Proof.
  destruct z as [|p|p]; simpl; split; try discriminate;
    intros [= H]; now apply Unsigned.to_uint_nonnil in H.
Qed.

Lemma Number_toString_inj (a b : Z) :
  JS.Number_toString a = JS.Number_toString b -> a = b.
Proof.
  unfold JS.Number_toString. intros H.
  apply to_int_inj.
  destruct (to_int_not_nil a) as [Ha1 Ha2], (to_int_not_nil b) as [Hb1 Hb2].
  pose proof (NilZero.isi _ Ha1 Ha2) as Ea.
  pose proof (NilZero.isi _ Hb1 Hb2) as Eb.
  rewrite H, Eb in Ea. congruence.
Qed.

Lemma array_index_sound (k : string) (n : Z) :
  JS.array_index k = Some n -> k = JS.Number_toString n.
Proof.
  unfold JS.array_index.
  destruct (JS.digits_prefix 0 0 k) as [m [|c]]; [discriminate|].
  destruct (String.eqb_spec (JS.Number_toString m) k) as [E|E]; [|discriminate].
  destruct (m <=? 4294967294); [|discriminate]. cbn [andb]. now intros [= <-].
Qed.

Lemma is_array_index_true (k : string) :
  JS.is_array_index k = true ->
  exists i, JS.array_index k = Some i /\ JS.index_of_key k = i.
Proof.
  unfold JS.is_array_index, JS.index_of_key.
  destruct (JS.array_index k) as [i|]; [|discriminate]. now exists i.
Qed.

Lemma is_array_index_false (k : string) :
  JS.is_array_index k = false -> JS.array_index k = None.
Proof.
  unfold JS.is_array_index. now destruct (JS.array_index k).
Qed.

Lemma NoDup_keys_eq (o : JS.JsObject) (e x : string * Z) :
  NoDup (map fst o) -> In e o -> In x o -> fst e = fst x -> e = x.
Proof.
  induction o as [|a o IH]; simpl; [tauto|].
  intros Hnd He Hx Hk. apply NoDup_cons_iff in Hnd as [Ha Hnd].
  destruct He as [->|He], Hx as [->|Hx]; trivial.
  - exfalso. apply Ha. rewrite Hk. now apply in_map.
  - exfalso. apply Ha. rewrite <- Hk. now apply in_map.
  - now apply IH.
Qed.

Lemma StronglySorted_before {A} (R : A -> A -> Prop) (l : list A) (a b : A) :
  StronglySorted R l -> before l a b -> R a b.
Proof.
  intros Hs (l1 & l2 & l3 & ->).
  induction l1 as [|x l1 IH]; simpl in Hs.
  - apply StronglySorted_inv in Hs as [_ Hf]. rewrite Forall_forall in Hf.
    apply Hf. apply in_or_app. right. now left.
  - apply StronglySorted_inv in Hs as [Hs _]. now apply IH.
Qed.

Lemma filter_none {A} (p : A -> bool) (l : list A) :
  (forall x, In x l -> p x = false) -> filter p l = [].
Proof.
  induction l as [|a l IH]; intros H; [reflexivity|]. simpl.
  rewrite (H a) by now left. apply IH. intros x Hx. apply H. now right.
Qed.

Lemma filter_all {A} (p : A -> bool) (l : list A) :
  (forall x, In x l -> p x = true) -> filter p l = l.
Proof.
  induction l as [|a l IH]; intros H; [reflexivity|]. simpl.
  rewrite (H a) by now left. f_equal. apply IH. intros x Hx. apply H. now right.
Qed.

Lemma Object_entries_no_index (o : JS.JsObject) :
  (forall e, In e o -> JS.array_index (fst e) = None) -> JS.Object_entries o = o.
Proof.
  intros H. unfold JS.Object_entries.
  assert (Hf : forall e, In e o -> JS.is_array_index (fst e) = false).
  { intros e He. unfold JS.is_array_index. now rewrite (H e He). }
  rewrite filter_none by exact Hf.
  rewrite filter_all; [reflexivity|].
  intros x Hx. now rewrite (Hf x Hx).
Qed.

(** The entry picked by [const [first] = Object.entries(o).sort(...)] holds
    the greatest value, and among the entries holding that value it is the
    one enumerated first. *)
Lemma peak_entry_spec (o : JS.JsObject) (e : string * Z) :
  NoDup (map fst o) ->
  peak_entry o = Some e ->
  In e o
  /\ forall x, In x o ->
       snd x <= snd e /\ (snd x = snd e -> x = e \/ enumerated_before o e x).
Proof.
  intros Hnd Hp. split; [now apply peak_entry_In|].
  unfold peak_entry in Hp.
  apply (sort_head_split by_count_desc (fun a => - snd a)) in Hp
      as (l1 & l2 & Hl & H1 & H2);
    [|intros a b; unfold by_count_desc; lia].
  intros x Hx.
  assert (Hx' : In x (l1 ++ e :: l2)).
  { rewrite <- Hl. eapply Permutation_in; [|exact Hx].
    symmetry. apply Object_entries_perm. }
  apply in_app_or in Hx' as [Hx'|[<-|Hx']].
  { specialize (H1 x Hx'). lia. }
  { split; [lia|now left]. }
  specialize (H2 x Hx'). split; [lia|]. intros _.
  pose proof (before_split_tail _ _ _ _ _ Hl Hx') as Hb.
  unfold JS.Object_entries in Hb.
  apply before_app_inv in Hb as [Hb|[[He' Hx'']|Hb]].
  - (* both keys are array indices *)
    pose proof (before_In _ _ _ Hb) as [Hie Hix].
    apply (Permutation_in _ (Array_sort_perm _ _)) in Hie, Hix.
    apply filter_In in Hie as [Hie Hke], Hix as [Hix Hkx].
    apply is_array_index_true in Hke as (i & Hi & Hi'), Hkx as (j & Hj & Hj').
    apply (StronglySorted_before (fun a b =>
             JS.index_of_key (fst a) <= JS.index_of_key (fst b))) in Hb.
    2:{ apply (Array_sort_ascending _ (fun a => JS.index_of_key (fst a))).
        reflexivity. }
    rewrite Hi', Hj' in Hb.
    destruct (Z.eq_dec i j) as [<-|Hne].
    + left. symmetry. apply (NoDup_keys_eq o); trivial.
      apply array_index_sound in Hi, Hj. congruence.
    + right. unfold enumerated_before. rewrite Hi, Hj. lia.
  - (* an array index before another key *)
    apply (Permutation_in _ (Array_sort_perm _ _)) in He'.
    apply filter_In in He' as [_ Hke], Hx'' as [_ Hkx].
    apply is_array_index_true in Hke as (i & Hi & _).
    apply negb_true_iff, is_array_index_false in Hkx.
    right. unfold enumerated_before. now rewrite Hi, Hkx.
  - (* no array index *)
    pose proof (before_In _ _ _ Hb) as [Hie Hix].
    apply filter_In in Hie as [_ Hke], Hix as [_ Hkx].
    apply negb_true_iff, is_array_index_false in Hke, Hkx.
    right. unfold enumerated_before. rewrite Hke, Hkx.
    now apply before_filter in Hb.
Qed.

(** ** Peaks of a grouped tally *)

Lemma first_before_map_inv {A B} (f : A -> B) (l : list A) (a b : A) :
  (forall x, In x l -> f x = f a -> x = a) ->
  first_before (map f l) (f a) (f b) -> first_before l a b.
Proof.
  intros Hinj (Hne & l1 & l2 & He & Hnin).
  split; [congruence|].
  apply map_eq_app in He as (l1' & r & -> & <- & Hr).
  destruct r as [|a' l2']; [discriminate|]. simpl in Hr. injection Hr as Ha _.
  assert (a' = a) as ->.
  { apply Hinj; [|assumption]. apply in_or_app. right. now left. }
  exists l1', l2'. split; [reflexivity|].
  intros Hb. apply Hnin. now apply in_map.
Qed.

Section Groups.
Variable f : ContributionDay -> Z.
Variable key_of : Z -> string.
Variable dom : Z -> Prop.
Hypothesis key_of_inj : forall a b, dom a -> dom b -> key_of a = key_of b -> a = b.

Variable days : list ContributionDay.
Hypothesis days_dom : forall d, In d days -> dom (f d).

Let key (d : ContributionDay) : string := key_of (f d).

Lemma total_of_group l v :
  (forall d, In d l -> dom (f d)) -> dom v ->
  total_of (key_of v) (day_pairs key l) = group_total f v l.
Proof.
  intros Hl Hv. induction l as [|d l IH]; simpl; [reflexivity|].
  rewrite IH by (intros; apply Hl; now right). f_equal.
  unfold key. destruct (Z.eqb_spec (f d) v) as [->|Hn].
  - now rewrite String.eqb_refl.
  - destruct (String.eqb_spec (key_of (f d)) (key_of v)) as [E|E]; [|reflexivity].
    exfalso. apply Hn. apply key_of_inj; trivial. apply Hl. now left.
Qed.

Lemma tally_keys : map fst (fold_left (tally key) days []) = distinct (map key days).
Proof.
  rewrite tally_is_tally_pairs, tally_pairs_eq, map_map. cbn [fst].
  rewrite map_id. unfold day_pairs. now rewrite map_map.
Qed.

Lemma tally_entry e :
  In e (fold_left (tally key) days []) ->
  exists d, In d days /\ e = (key_of (f d), group_total f (f d) days).
Proof.
  rewrite tally_is_tally_pairs, tally_pairs_eq. intros H.
  apply in_map_iff in H as (k & <- & Hk). apply -> distinct_In in Hk.
  unfold day_pairs in Hk. rewrite map_map in Hk. cbn [fst] in Hk.
  apply in_map_iff in Hk as (d & <- & Hd). exists d. split; [assumption|].
  unfold key. f_equal. apply total_of_group; auto.
Qed.

Lemma tally_entry_of d :
  In d days -> In (key_of (f d), group_total f (f d) days) (fold_left (tally key) days []).
Proof.
  intros Hd. rewrite tally_is_tally_pairs, tally_pairs_eq.
  apply in_map_iff. exists (key d). split.
  - unfold key. f_equal. apply total_of_group; auto.
  - apply distinct_In. unfold day_pairs. rewrite map_map. cbn [fst].
    now apply in_map.
Qed.

(** The peak is a group with the greatest total, and the one enumerated
    first among the groups with that total. *)
Lemma group_peak :
  days <> [] ->
  exists d,
    In d days
    /\ peak_entry (fold_left (tally key) days [])
       = Some (key_of (f d), group_total f (f d) days)
    /\ forall d', In d' days ->
         group_total f (f d') days <= group_total f (f d) days
         /\ (group_total f (f d') days = group_total f (f d) days ->
             f d' = f d
             \/ enumerated_before (fold_left (tally key) days [])
                  (key_of (f d), group_total f (f d) days)
                  (key_of (f d'), group_total f (f d') days)).
Proof.
  intros Hne.
  destruct (peak_entry_some (fold_left (tally key) days [])) as [e He].
  { apply tally_fold_not_nil. now left. }
  assert (Hnd : NoDup (map fst (fold_left (tally key) days []))).
  { rewrite tally_keys. apply distinct_NoDup. }
  destruct (peak_entry_spec _ _ Hnd He) as [Hin Hmax].
  destruct (tally_entry e Hin) as (d & Hd & ->).
  exists d. repeat split; trivial.
  - apply (Hmax _ (tally_entry_of d' H)).
  - intros Ht. destruct (Hmax _ (tally_entry_of d' H)) as [_ Htie].
    destruct (Htie Ht) as [[= E _]|Hb]; [|now right].
    left. apply key_of_inj; auto.
Qed.

Lemma tally_before d d' :
  In d days -> In d' days ->
  before (fold_left (tally key) days [])
    (key_of (f d), group_total f (f d) days)
    (key_of (f d'), group_total f (f d') days) ->
  first_before (map f days) (f d) (f d').
Proof.
  intros Hd Hd' Hb.
  apply (before_map fst) in Hb. rewrite tally_keys in Hb. cbn [fst] in Hb.
  apply distinct_before in Hb.
  unfold key in Hb. rewrite <- (map_map f key_of) in Hb.
  apply first_before_map_inv in Hb; [assumption|].
  intros x Hx E. apply in_map_iff in Hx as (dx & <- & Hdx).
  apply key_of_inj; auto.
Qed.
End Groups.

(** ** The most active weekday and month *)

Lemma weekday_key_index (w : Z) :
  0 <= w <= 6 ->
  JS.array_index (JS.Number_toString w) = Some w
  /\ JS.parseInt (JS.Number_toString w) = Some w.
Proof.
  intros H.
  assert (E : w = 0 \/ w = 1 \/ w = 2 \/ w = 3 \/ w = 4 \/ w = 5 \/ w = 6) by lia.
  repeat (destruct E as [->|E]); try subst w; split; reflexivity.
Qed.

Lemma month_key_index (n : Z) :
  1 <= n <= 12 ->
  JS.array_index (month_key n) = (if 10 <=? n then Some n else None)
  /\ JS.parseInt (month_key n) = Some n.
Proof.
  intros H.
  assert (E : n = 1 \/ n = 2 \/ n = 3 \/ n = 4 \/ n = 5 \/ n = 6 \/ n = 7
              \/ n = 8 \/ n = 9 \/ n = 10 \/ n = 11 \/ n = 12) by lia.
  repeat (destruct E as [->|E]); try subst n; split; reflexivity.
Qed.

Lemma month_key_inj (a b : Z) :
  1 <= a <= 12 -> 1 <= b <= 12 -> month_key a = month_key b -> a = b.
Proof.
  intros Ha Hb E.
  destruct (month_key_index a Ha) as [_ Pa], (month_key_index b Hb) as [_ Pb].
  rewrite E in Pa. congruence.
Qed.

Section Months.
Variable legacy_parse : string -> option Z.
Variable LocalTZA : Z -> Z.

Lemma month_number_range (day : ContributionDay) :
  Date_of legacy_parse day.(date) <> None ->
  1 <= month_number legacy_parse LocalTZA day <= 12.
Proof.
  unfold month_number, JS.Date_getMonth.
  destruct (Date_of legacy_parse day.(date)) as [t|]; [|congruence].
  intros _. cbn [option_map].
  pose proof (MonthFromTime_range (JS.LocalTime LocalTZA t)). lia.
Qed.

Lemma monthKey_month_key (day : ContributionDay) :
  Date_of legacy_parse day.(date) <> None ->
  monthKey legacy_parse LocalTZA day
  = month_key (month_number legacy_parse LocalTZA day).
Proof.
  unfold monthKey, month_number, month_key, JS.Date_getMonth.
  destruct (Date_of legacy_parse day.(date)) as [t|]; [reflexivity|congruence].
Qed.

Lemma contribution_days_valid (userData : User) (day : ContributionDay) :
  In day (contribution_days legacy_parse userData) ->
  Date_of legacy_parse day.(date) <> None.
Proof.
  unfold contribution_days. intros H. apply filter_In in H as [_ H].
  destruct (Date_of legacy_parse day.(date)); [discriminate|discriminate].
Qed.
End Months.

Lemma tally_ext (k1 k2 : ContributionDay -> string) (days : list ContributionDay)
    (o : JS.JsObject) :
  (forall d, In d days -> k1 d = k2 d) ->
  fold_left (tally k1) days o = fold_left (tally k2) days o.
Proof.
  revert o. induction days as [|d days IH]; intros o H; simpl; [reflexivity|].
  unfold tally at 2 4. rewrite (H d) by now left.
  apply IH. intros; apply H; now right.
Qed.

(** The most active weekday: a weekday with the greatest total, and the
    smallest weekday number among those with that total. *)
Lemma daily_peak (days : list ContributionDay) :
  days <> [] ->
  (forall d, In d days -> 0 <= d.(weekday) <= 6) ->
  exists d,
    In d days
    /\ peak_entry (dailyCommits days)
       = Some (JS.Number_toString d.(weekday), group_total weekday d.(weekday) days)
    /\ forall d', In d' days ->
         group_total weekday d'.(weekday) days <= group_total weekday d.(weekday) days
         /\ (group_total weekday d'.(weekday) days
             = group_total weekday d.(weekday) days ->
             d.(weekday) <= d'.(weekday)).
Proof.
  intros Hne Hwd.
  destruct (group_peak weekday JS.Number_toString (fun _ => True)
              (fun a b _ _ => Number_toString_inj a b) days (fun _ _ => I) Hne)
    as (d & Hd & Hp & Hmax).
  exists d. repeat split; trivial.
  - now apply Hmax.
  - intros Ht. destruct (Hmax d' H) as [_ Htie].
    destruct (Htie Ht) as [E|Hb]; [lia|].
    unfold enumerated_before in Hb. cbn [fst] in Hb.
    destruct (weekday_key_index _ (Hwd d Hd)) as [E _].
    destruct (weekday_key_index _ (Hwd d' H)) as [E' _].
    rewrite E, E' in Hb. lia.
Qed.

(** The most active month: a month with the greatest total, and the one
    enumerated first among those with that total. *)
Lemma monthly_peak legacy_parse LocalTZA (days : list ContributionDay) :
  days <> [] ->
  (forall d, In d days -> Date_of legacy_parse d.(date) <> None) ->
  exists d,
    In d days
    /\ peak_entry (monthlyCommits legacy_parse LocalTZA days)
       = Some (month_key (month_number legacy_parse LocalTZA d),
               group_total (month_number legacy_parse LocalTZA)
                 (month_number legacy_parse LocalTZA d) days)
    /\ forall d', In d' days ->
         group_total (month_number legacy_parse LocalTZA)
           (month_number legacy_parse LocalTZA d') days
         <= group_total (month_number legacy_parse LocalTZA)
              (month_number legacy_parse LocalTZA d) days
         /\ (group_total (month_number legacy_parse LocalTZA)
               (month_number legacy_parse LocalTZA d') days
             = group_total (month_number legacy_parse LocalTZA)
                 (month_number legacy_parse LocalTZA d) days ->
             month_number legacy_parse LocalTZA d'
             = month_number legacy_parse LocalTZA d
             \/ month_enumerated_before (month_number legacy_parse LocalTZA) days
                  (month_number legacy_parse LocalTZA d)
                  (month_number legacy_parse LocalTZA d')).
Proof.
  intros Hne Hvalid.
  set (mn := month_number legacy_parse LocalTZA).
  assert (Hdom : forall d, In d days -> 1 <= mn d <= 12).
  { intros d Hd. apply month_number_range. now apply Hvalid. }
  unfold monthlyCommits.
  rewrite (tally_ext (monthKey legacy_parse LocalTZA) (fun d => month_key (mn d)))
    by (intros d Hd; apply monthKey_month_key; now apply Hvalid).
  destruct (group_peak mn month_key (fun n => 1 <= n <= 12) month_key_inj days Hdom Hne)
    as (d & Hd & Hp & Hmax).
  exists d. repeat split; trivial.
  - now apply Hmax.
  - intros Ht. destruct (Hmax d' H) as [_ Htie].
    destruct (Htie Ht) as [E|Hb]; [now left|]. right.
    pose proof (Hdom d Hd) as Rd. pose proof (Hdom d' H) as Rd'.
    unfold enumerated_before in Hb. cbn [fst] in Hb.
    destruct (month_key_index _ Rd) as [Ed _].
    destruct (month_key_index _ Rd') as [Ed' _].
    rewrite Ed, Ed' in Hb. unfold month_enumerated_before.
    destruct (Z.leb_spec 10 (mn d)), (Z.leb_spec 10 (mn d')).
    + left. lia.
    + left. lia.
    + contradiction.
    + right. split; [lia|]. split; [lia|].
      apply (tally_before mn month_key (fun n => 1 <= n <= 12) month_key_inj
               days Hdom d d' Hd H Hb).
Qed.





(** ** Top languages *)

Lemma total_of_count (names : list string) (k : string) :
  total_of k (map (fun n => (n, 1)) names) = language_count names k.
Proof.
  unfold language_count. induction names as [|a names IH]; [reflexivity|].
  cbn [map total_of count_occ]. rewrite IH.
  destruct (String.eqb_spec a k) as [->|Hn].
  - destruct (string_dec k k); [lia|congruence].
  - destruct (string_dec a k); [congruence|lia].
Qed.

Lemma language_tally_eq (repos : list Repository) :
  language_tally repos
  = map (fun k => (k, language_count (language_names repos) k))
        (distinct (language_names repos)).
Proof.
  unfold language_tally. rewrite tally_pairs_eq, map_map. cbn [fst].
  rewrite map_id. apply map_ext. intros k. now rewrite total_of_count.
Qed.

Lemma language_names_In (repos : list Repository) (n : string) :
  In n (language_names repos) ->
  n <> ""
  /\ exists repo, In repo repos
                  /\ repo.(primaryLanguage) = Some {| Upstream.name := n |}.
Proof.
  induction repos as [|r repos IH]; simpl; [tauto|].
  destruct (primaryLanguage r) as [[nm]|] eqn:E.
  - cbn [Upstream.name]. destruct (String.eqb_spec nm "") as [->|Hn].
    + intros H. destruct (IH H) as (? & repo & ? & ?). eauto.
    + intros [<-|H].
      * split; [assumption|]. exists r. auto.
      * destruct (IH H) as (? & repo & ? & ?). eauto.
  - intros H. destruct (IH H) as (? & repo & ? & ?). eauto.
Qed.

Lemma In_firstn {A} (n : nat) (l : list A) (x : A) : In x (firstn n l) -> In x l.
Proof.
  revert l. induction n as [|n IH]; intros [|a l]; simpl; try tauto.
  intros [->|H]; [now left|right; now apply IH].
Qed.

Lemma StronglySorted_map {A B} (f : A -> B) (R : A -> A -> Prop)
    (R' : B -> B -> Prop) (s : list A) :
  (forall a b, In a s -> In b s -> R a b -> R' (f a) (f b)) ->
  StronglySorted R s -> StronglySorted R' (map f s).
Proof.
  intros H Hs. induction Hs as [|a s Hs IH Hf]; simpl; constructor.
  - apply IH. intros x y Hx Hy. apply H; now right.
  - rewrite Forall_forall in *. intros y Hy.
    apply in_map_iff in Hy as (x & <- & Hx).
    apply H; [now left|now right|now apply Hf].
Qed.

(** *** The tally of values is the tally of counts, for plain names *)

Lemma own_get_counted (o : JS.JsObject) (k : string) :
  JS.own_get (counted o) k = option_map JS.Count (JS.obj_get o k).
Proof.
  induction o as [|[k' v] o IH]; simpl; [reflexivity|].
  destruct (k' =? k)%string; [reflexivity|assumption].
Qed.

Lemma own_set_counted (o : JS.JsObject) (k : string) (v : Z) :
  JS.own_set (counted o) k (JS.Count v) = counted (JS.obj_set o k v).
Proof.
  induction o as [|[k' v'] o IH]; simpl; [reflexivity|].
  destruct (k' =? k)%string; simpl; [reflexivity|]. now rewrite IH.
Qed.

Lemma language_step_counted (o : JS.JsObject) (nm : string) :
  JS.inherited nm = false ->
  JS.assign (counted o) nm (JS.incremented (counted o) nm)
  = counted (JS.obj_set o nm (JS.or_zero (JS.obj_get o nm) + 1)).
Proof.
  intros Hi. unfold JS.assign.
  destruct (String.eqb_spec nm "__proto__") as [->|_]; [discriminate Hi|].
  unfold JS.incremented. rewrite own_get_counted, Hi.
  destruct (JS.obj_get o nm) as [n|]; cbn [option_map]; apply own_set_counted.
Qed.

Lemma languages_counted (repos : list Repository) :
  plain_names (language_names repos) ->
  languages repos = counted (language_tally repos).
Proof.
  unfold languages, language_tally, tally_pairs.
  change (@nil (string * JS.TallyValue)) with (counted []).
  generalize (@nil (string * Z)).
  induction repos as [|r repos IH]; intros o Hp; [reflexivity|].
  cbn [fold_left language_names] in *.
  destruct (primaryLanguage r) as [lang|]; [|now apply IH].
  destruct (Upstream.name lang =? "")%string; [now apply IH|].
  cbn [map fold_left fst snd].
  rewrite language_step_counted by (apply Hp; now left).
  apply IH. intros n Hn. apply Hp. now right.
Qed.

Lemma Array_sort_map {A B} (g : A -> B) (cmpA : A -> A -> Z) (cmpB : B -> B -> Z)
    (l : list A) :
  (forall a b, cmpB (g a) (g b) = cmpA a b) ->
  JS.Array_sort cmpB (map g l) = map g (JS.Array_sort cmpA l).
Proof.
  intros H. induction l as [|x l IH]; [reflexivity|]. simpl. rewrite IH.
  generalize (JS.Array_sort cmpA l) as s.
  induction s as [|y s IHs]; [reflexivity|]. simpl. rewrite H.
  destruct (cmpA x y >? 0); simpl; [now rewrite IHs|reflexivity].
Qed.

Lemma filter_map_comm {A B} (g : A -> B) (p : B -> bool) (l : list A) :
  filter p (map g l) = map g (filter (fun a => p (g a)) l).
Proof.
  induction l as [|x l IH]; [reflexivity|]. simpl.
  destruct (p (g x)); simpl; now rewrite IH.
Qed.

Lemma Object_entries_counted (o : JS.JsObject) :
  JS.Object_entries (counted o) = counted (JS.Object_entries o).
Proof.
  unfold JS.Object_entries, counted.
  rewrite !filter_map_comm, map_app. cbn [fst]. f_equal.
  apply Array_sort_map. reflexivity.
Qed.

Lemma sort_languages_counted engine_sort (o : JS.JsObject) :
  sort_languages engine_sort (counted o) = counted (JS.Array_sort by_count_desc o).
Proof.
  unfold sort_languages.
  assert (E : forallb is_count (counted o) = true).
  { apply forallb_forall. intros e He. unfold counted in He.
    apply in_map_iff in He as (x & <- & _). reflexivity. }
  rewrite E. unfold counted. apply Array_sort_map. reflexivity.
Qed.

(** For plain names the language pipeline is the stable sort of the counts
    by descending count, over the enumeration of the tally. *)
Lemma top_languages_plain engine_sort (repos : list Repository) :
  plain_names (language_names repos) ->
  top_languages engine_sort repos
  = firstn 3 (map fst (JS.Array_sort by_count_desc
                         (JS.Object_entries (language_tally repos)))).
Proof.
  intros Hp. unfold top_languages.
  rewrite (languages_counted repos Hp), Object_entries_counted,
    sort_languages_counted.
  rewrite <- firstn_map. unfold counted. rewrite map_map. reflexivity.
Qed.

Lemma top_languages_length engine_sort (repos : list Repository) :
  (List.length (top_languages engine_sort repos) <= 3)%nat.
Proof. unfold top_languages. rewrite length_map. apply firstn_le_length. Qed.

(** *** The ranking *)

Lemma NoDup_keys_entries (o : JS.JsObject) : NoDup (map fst o) -> NoDup o.
Proof. apply NoDup_map_inv. Qed.

(** The order of [Object.entries o], on two of its entries. *)
Lemma Object_entries_before (o : JS.JsObject) (e x : string * Z) :
  NoDup (map fst o) ->
  before (JS.Object_entries o) e x -> enumerated_before o e x.
Proof.
  intros Hnd Hb.
  assert (Hne : e <> x).
  { apply (before_NoDup_neq (JS.Object_entries o)); [|assumption].
    apply (Permutation_NoDup (Permutation_sym (Object_entries_perm o))).
    now apply NoDup_keys_entries. }
  unfold JS.Object_entries in Hb.
  apply before_app_inv in Hb as [Hb|[[He' Hx'']|Hb]].
  - pose proof (before_In _ _ _ Hb) as [Hie Hix].
    apply (Permutation_in _ (Array_sort_perm _ _)) in Hie, Hix.
    apply filter_In in Hie as [Hie Hke], Hix as [Hix Hkx].
    apply is_array_index_true in Hke as (i & Hi & Hi'), Hkx as (j & Hj & Hj').
    apply (StronglySorted_before (fun a b =>
             JS.index_of_key (fst a) <= JS.index_of_key (fst b))) in Hb.
    2:{ apply (Array_sort_ascending _ (fun a => JS.index_of_key (fst a))).
        reflexivity. }
    rewrite Hi', Hj' in Hb.
    unfold enumerated_before. rewrite Hi, Hj.
    destruct (Z.eq_dec i j) as [<-|Hij]; [|lia].
    exfalso. apply Hne. apply (NoDup_keys_eq o); trivial.
    apply array_index_sound in Hi, Hj. congruence.
  - apply (Permutation_in _ (Array_sort_perm _ _)) in He'.
    apply filter_In in He' as [_ Hke], Hx'' as [_ Hkx].
    apply is_array_index_true in Hke as (i & Hi & _).
    apply negb_true_iff, is_array_index_false in Hkx.
    unfold enumerated_before. now rewrite Hi, Hkx.
  - pose proof (before_In _ _ _ Hb) as [Hie Hix].
    apply filter_In in Hie as [_ Hke], Hix as [_ Hkx].
    apply negb_true_iff, is_array_index_false in Hke, Hkx.
    unfold enumerated_before. rewrite Hke, Hkx.
    now apply before_filter in Hb.
Qed.

(** The names sorted by the pipeline: every distinct name once, by
    descending repository count, ties in the order of enumeration of the
    tally. *)
Lemma language_ranking (repos : list Repository) :
  let ranked :=
    map fst (JS.Array_sort by_count_desc
               (JS.Object_entries (language_tally repos))) in
  Permutation ranked (distinct (language_names repos))
  /\ StronglySorted (outranks_enumerated (language_names repos)) ranked.
Proof.
  cbv zeta. set (names := language_names repos). set (o := language_tally repos).
  assert (Eo : o = map (fun k => (k, language_count names k)) (distinct names))
    by apply language_tally_eq.
  assert (Ek : map fst o = distinct names).
  { rewrite Eo, map_map. cbn [fst]. apply map_id. }
  assert (Hnd : NoDup (map fst o)) by (rewrite Ek; apply distinct_NoDup).
  assert (Hp : Permutation (JS.Array_sort by_count_desc (JS.Object_entries o)) o).
  { etransitivity; [apply Array_sort_perm|apply Object_entries_perm]. }
  split.
  - rewrite <- Ek. now apply Permutation_map.
  - apply (StronglySorted_map fst
             (sorted_stably (fun a => - snd a) (JS.Object_entries o))).
    2:{ apply Array_sort_stable. intros a b. unfold by_count_desc. lia. }
    intros a b Ha Hb Hab.
    apply (Permutation_in _ Hp) in Ha, Hb.
    pose proof Ha as Ha'. pose proof Hb as Hb'. rewrite Eo in Ha', Hb'.
    apply in_map_iff in Ha' as (ka & <- & Hka), Hb' as (kb & <- & Hkb).
    cbn [fst]. unfold outranks_enumerated.
    destruct Hab as [Hlt|[Heq Hbef]]; cbn [snd] in *.
    + left. lia.
    + right. split; [lia|].
      apply (Object_entries_before o _ _ Hnd) in Hbef.
      unfold enumerated_before in Hbef. cbn [fst] in Hbef.
      unfold name_enumerated_before.
      destruct (JS.array_index ka), (JS.array_index kb); trivial.
      apply (before_map fst) in Hbef. rewrite Ek in Hbef.
      now apply distinct_before in Hbef.
Qed.

Lemma outranks_without_index (names : list string) (ranked : list string) :
  (forall n, In n names -> JS.array_index n = None) ->
  (forall n, In n ranked -> In n names) ->
  StronglySorted (outranks_enumerated names) ranked ->
  StronglySorted (outranks names) ranked.
Proof.
  intros Hni Hin Hs. rewrite <- (map_id ranked).
  apply (StronglySorted_map (fun n => n) (outranks_enumerated names)); [|exact Hs].
  intros a b Ha Hb [H|[H1 H2]]; [now left|right]. split; [assumption|].
  unfold name_enumerated_before in H2.
  now rewrite (Hni a (Hin a Ha)), (Hni b (Hin b Hb)) in H2.
Qed.

(** C5.  Whenever the handler answers with a stats object, [topLanguages]
    has at most 3 entries.  When no language is named like a property of
    [Object.prototype], each entry is the non-empty primary language name of
    a fetched repository (repositories without a primary language are not
    counted), and [topLanguages] is the first three names of the ranking of
    the distinct names by descending repository count, ties going to the
    name enumerated first by [Object.entries]; when moreover no language is
    named by an array index, that is the name met first.  The repositories
    with languages A, A, B, C, C, C give C, A, B. *)
Theorem topLanguages_ranked :
  (forall (engine_sort : JS.EngineSort)
          (legacy_parse : string -> option Z) (LocalTZA : Z -> Z)
          (octokit_graphql : string -> Exc Response)
          (request : Request) (username : string) (userData : User),
      Answered octokit_graphql request username userData ->
      contribution_days legacy_parse userData <> [] ->
      exists stats,
        GET engine_sort legacy_parse LocalTZA octokit_graphql request []
          = (inr {| body := StatsBody stats; status := 200 |}, [username])
        /\ (List.length stats.(topLanguages) <= 3)%nat
        /\ (plain_names (language_names userData.(repositories).(nodes)) ->
            (forall n, In n stats.(topLanguages) ->
               n <> ""
               /\ exists repo,
                    In repo userData.(repositories).(nodes)
                    /\ repo.(primaryLanguage) = Some {| Upstream.name := n |})
            /\ exists ranked,
                 stats.(topLanguages) = firstn 3 ranked
                 /\ Permutation ranked
                      (distinct (language_names userData.(repositories).(nodes)))
                 /\ StronglySorted
                      (outranks_enumerated
                         (language_names userData.(repositories).(nodes)))
                      ranked
                 /\ ((forall n,
                        In n (language_names userData.(repositories).(nodes)) ->
                        JS.array_index n = None) ->
                     StronglySorted
                       (outranks (language_names userData.(repositories).(nodes)))
                       ranked)))
  /\ (forall engine_sort : JS.EngineSort,
        top_languages engine_sort sample_repos = ["C"; "A"; "B"]).
Proof.
  split; [|reflexivity].
  intros engine_sort legacy_parse LocalTZA octokit_graphql request username
    userData Ha Hne.
  destruct (build_stats_ok engine_sort legacy_parse LocalTZA userData
              ([] ++ [username]) Hne)
    as (day & month & _ & _ & Hb).
  eexists. split.
  { rewrite (GET_answered _ _ _ _ _ _ _ _ Ha), Hb. reflexivity. }
  cbn [topLanguages]. set (repos := userData.(repositories).(nodes)).
  split; [apply top_languages_length|].
  intros Hplain. rewrite (top_languages_plain engine_sort repos Hplain).
  destruct (language_ranking repos) as [Hperm Hsorted].
  set (ranked := map fst (JS.Array_sort by_count_desc
                            (JS.Object_entries (language_tally repos)))) in *.
  assert (Hin : forall n, In n ranked -> In n (language_names repos)).
  { intros n Hn. apply distinct_In. now apply (Permutation_in _ Hperm). }
  split.
  - intros n Hn. apply language_names_In, Hin. now apply In_firstn in Hn.
  - exists ranked. repeat split; trivial.
    intros Hni. now apply outranks_without_index.
Qed.

Lemma sample_repos_plain : plain_names (language_names sample_repos).
Proof. intros n Hn. simpl in Hn. destruct Hn as [<-|[<-|[<-|[<-|[<-|[<-|[]]]]]]]; reflexivity. Qed.

Lemma topLanguages_ranked_witness :
  exists stats,
    GET sample_sort no_legacy utc (upstream_of sample_user) (request_for "octocat") []
      = (inr {| body := StatsBody stats; status := 200 |}, ["octocat"])
    /\ stats.(topLanguages) = ["C"; "A"; "B"]
    /\ exists ranked,
         stats.(topLanguages) = firstn 3 ranked
         /\ StronglySorted (outranks (language_names sample_repos)) ranked.
Proof.
  destruct (proj1 topLanguages_ranked sample_sort no_legacy utc
              (upstream_of sample_user) (request_for "octocat") "octocat" sample_user)
    as (stats & Hg & _ & Hr).
  - exact sample_answered.
  - vm_compute. discriminate.
  - exists stats. split; [exact Hg|]. split.
    + vm_compute in Hg. injection Hg as <-. reflexivity.
    + destruct (Hr sample_repos_plain) as (_ & ranked & E & _ & _ & Hs).
      exists ranked. split; [exact E|]. apply Hs.
      intros n Hn. simpl in Hn.
      destruct Hn as [<-|[<-|[<-|[<-|[<-|[<-|[]]]]]]]; reflexivity.
Defined.

(** A language named by an array index is enumerated before the others: of
    "Go", met first, and "7", with one repository each, "7" is listed
    first. *)
Example index_named_language_comes_first :
  forall engine_sort : JS.EngineSort,
    top_languages engine_sort numeric_name_repos = ["7"; "Go"].
Proof. reflexivity. Qed.

(** Names found on [Object.prototype]: the assignment to [__proto__] is
    ignored, so that language is never listed; the count of [constructor]
    is a string from its first repository on, the comparator answers [NaN]
    against it, and the order of the entries is the engine's. *)
Example prototype_named_languages :
  (forall engine_sort : JS.EngineSort,
     top_languages engine_sort [repo_of 1 "__proto__"; repo_of 1 "Go"] = ["Go"])
  /\ languages [repo_of 1 "constructor"; repo_of 1 "A"; repo_of 1 "constructor"]
     = [("constructor", JS.Text); ("A", JS.Count 1)]
  /\ (forall engine_sort : JS.EngineSort,
        top_languages engine_sort [repo_of 1 "constructor"; repo_of 1 "A"]
        = map fst (firstn 3 (engine_sort [("constructor", JS.Text);
                                           ("A", JS.Count 1)]))).
Proof. repeat split. Qed.

(** ** Binary64 division and [Math.round] *)

Lemma pow2_pos e : (0 < JS.pow2 e)%Q.
Proof. unfold JS.pow2. apply Qpower_0_lt. reflexivity. Qed.

Lemma pow2_plus a b : (JS.pow2 (a + b) == JS.pow2 a * JS.pow2 b)%Q.
Proof. unfold JS.pow2. apply Qpower_plus. discriminate. Qed.

Lemma pow2_opp_cancel e : (JS.pow2 (- e) * JS.pow2 e == 1)%Q.
Proof. rewrite <- pow2_plus. replace (- e + e) with 0 by lia. reflexivity. Qed.

Lemma pow2_Z n : 0 <= n -> (inject_Z (2 ^ n) == JS.pow2 n)%Q.
Proof. intros. unfold JS.pow2. now rewrite Zpower_Qpower. Qed.

Lemma round_half_even_err y :
  (inject_Z (JS.round_half_even y) - y <= 1 # 2)%Q
  /\ (y - inject_Z (JS.round_half_even y) <= 1 # 2)%Q.
Proof.
  unfold JS.round_half_even. cbv zeta.
  pose proof (Qfloor_le y) as Hlo. pose proof (Qlt_floor y) as Hhi.
  rewrite inject_Z_plus in Hhi. change (inject_Z 1) with 1%Q in Hhi.
  destruct (Qcompare_spec (y - inject_Z (Qfloor y)) (1 # 2)) as [E|E|E].
  - destruct (Z.even (Qfloor y)); [|rewrite inject_Z_plus; change (inject_Z 1) with 1%Q]; lra.
  - lra.
  - rewrite inject_Z_plus; change (inject_Z 1) with 1%Q. lra.
Qed.

Lemma Q_as_fraction x : (x == inject_Z (Qnum x) / inject_Z (Z.pos (Qden x)))%Q.
Proof. destruct x as [p q]. simpl. now rewrite <- Qmake_Qdiv. Qed.

Lemma ilog2_lower x : (0 < x)%Q -> (JS.pow2 (JS.ilog2 x) <= x)%Q.
Proof.
  intros Hx. unfold JS.ilog2. cbv zeta.
  set (p := Qnum x). set (q := Z.pos (Qden x)).
  destruct (Qle_bool (JS.pow2 (Z.log2 p - Z.log2 q)) x) eqn:E.
  - now apply Qle_bool_iff.
  - clear E.
    assert (Hp : 0 < p). { destruct x as [n d]. unfold Qlt in Hx. simpl in *. subst p. simpl. lia. }
    assert (Hq : 0 < q) by (subst q; lia).
    destruct (Z.log2_spec p Hp) as [Hp1 _].
    destruct (Z.log2_spec q Hq) as [_ Hq2].
    pose proof (Z.log2_nonneg p) as Lp. pose proof (Z.log2_nonneg q) as Lq.
    replace (Z.log2 p - Z.log2 q - 1) with (Z.log2 p + - (Z.succ (Z.log2 q))) by lia.
    rewrite pow2_plus.
    assert (A : (JS.pow2 (Z.log2 p) <= inject_Z p)%Q).
    { rewrite <- pow2_Z by assumption. now rewrite <- Zle_Qle. }
    assert (B : (inject_Z q <= JS.pow2 (Z.succ (Z.log2 q)))%Q).
    { rewrite <- pow2_Z by lia. rewrite <- Zle_Qle. lia. }
    pose proof (pow2_opp_cancel (Z.succ (Z.log2 q))) as C.
    pose proof (pow2_pos (Z.log2 p)) as P1.
    pose proof (pow2_pos (Z.succ (Z.log2 q))) as P2.
    pose proof (pow2_pos (- Z.succ (Z.log2 q))) as P3.
    rewrite (Q_as_fraction x). fold p q.
    assert (Qq : (0 < inject_Z q)%Q) by (change 0%Q with (inject_Z 0); now rewrite <- Zlt_Qlt).
    apply Qle_shift_div_l; [assumption|].
    set (a := JS.pow2 (Z.log2 p)) in *. set (b := JS.pow2 (- Z.succ (Z.log2 q))) in *.
    set (c := JS.pow2 (Z.succ (Z.log2 q))) in *. set (iq := inject_Z q) in *. set (ip := inject_Z p) in *.
    (* a * b * iq <= a * b * c = a <= ip *)
    assert (D : (a * b * iq <= a * b * c)%Q).
    { apply Qmult_le_l; [|assumption]. nra. }
    assert (F : (a * b * c == a)%Q) by (rewrite <- Qmult_assoc, C; ring).
    lra.
Qed.

Lemma round_binary64_pos_err x :
  (0 < x)%Q ->
  (x * (1 - ulp_half) <= JS.round_binary64_pos x)%Q
  /\ (JS.round_binary64_pos x <= x * (1 + ulp_half))%Q.
Proof.
  intros Hx. unfold JS.round_binary64_pos. cbv zeta.
  set (e := JS.ilog2 x - 52).
  pose proof (round_half_even_err (x * JS.pow2 (- e))) as [H1 H2].
  set (m := inject_Z (JS.round_half_even (x * JS.pow2 (- e)))) in *.
  pose proof (ilog2_lower x Hx) as Hl.
  assert (He : (JS.pow2 e == JS.pow2 (JS.ilog2 x) * (1 # 4503599627370496))%Q).
  { unfold e. replace (JS.ilog2 x - 52) with (JS.ilog2 x + - 52) by lia.
    rewrite pow2_plus. apply Qmult_comp; [reflexivity|]. reflexivity. }
  pose proof (pow2_opp_cancel e) as C.
  pose proof (pow2_pos e) as P.
  set (pe := JS.pow2 e) in *. set (pn := JS.pow2 (- e)) in *.
  set (pl := JS.pow2 (JS.ilog2 x)) in *.
  assert (X : (x * pn * pe == x)%Q) by (rewrite <- Qmult_assoc, C; ring).
  assert (U1 : ((m - x * pn) * pe <= (1 # 2) * pe)%Q).
  { apply Qmult_le_r; [assumption|lra]. }
  assert (U2 : ((x * pn - m) * pe <= (1 # 2) * pe)%Q).
  { apply Qmult_le_r; [assumption|lra]. }
  assert (U1' : (m * pe - x <= (1 # 2) * pe)%Q).
  { setoid_replace (m * pe - x)%Q with ((m - x * pn) * pe)%Q; [assumption|].
    rewrite <- X at 1. ring. }
  assert (U2' : (x - m * pe <= (1 # 2) * pe)%Q).
  { setoid_replace (x - m * pe)%Q with ((x * pn - m) * pe)%Q; [assumption|].
    rewrite <- X at 1. ring. }
  unfold ulp_half. split; lra.
Qed.

Lemma round_binary64_err x :
  (0 < x)%Q ->
  (x * (1 - ulp_half) <= JS.round_binary64 x)%Q
  /\ (JS.round_binary64 x <= x * (1 + ulp_half))%Q.
Proof.
  intros Hx. unfold JS.round_binary64.
  destruct (Qcompare_spec x 0) as [E|E|E]; try lra.
  now apply round_binary64_pos_err.
Qed.

Lemma round_binary64_zero x : (x == 0)%Q -> JS.round_binary64 x = 0%Q.
Proof.
  intros Hx. unfold JS.round_binary64.
  destruct (Qcompare_spec x 0) as [E|E|E]; trivial; lra.
Qed.

Lemma Math_round_div_nearest (T L : Z) :
  0 <= T < 2 ^ 48 -> 1 <= L ->
  Z.abs (2 * L * JS.Math_round
                   (JS.Number_div (inject_Z T)
                      (JS.Number_div (inject_Z L) (inject_Z 7)))
         - 14 * T) <= L.
Proof.
  intros HT HL. unfold JS.Number_div, JS.Math_round.
  set (l := inject_Z L). set (t := inject_Z T).
  assert (Hl : (1 <= l)%Q) by (change 1%Q with (inject_Z 1); unfold l; now rewrite <- Zle_Qle).
  assert (Ht0 : (0 <= t)%Q) by (change 0%Q with (inject_Z 0); unfold t; rewrite <- Zle_Qle; lia).
  assert (Ht1 : (t <= 281474976710655)%Q).
  { change 281474976710655%Q with (inject_Z 281474976710655). unfold t.
    rewrite <- Zle_Qle. change (2 ^ 48) with 281474976710656 in HT. lia. }
  assert (HA : (0 < l / inject_Z 7)%Q).
  { apply Qlt_shift_div_l; [reflexivity|]. lra. }
  destruct (round_binary64_err _ HA) as [D1 D2].
  set (d := JS.round_binary64 (l / inject_Z 7)) in *.
  assert (E7 : (l / inject_Z 7 == l * (1 # 7))%Q) by reflexivity.
  rewrite E7 in D1, D2. unfold ulp_half in D1, D2.
  assert (Hd : (0 < d)%Q) by lra.
  destruct (Z.eq_dec T 0) as [->|HTne].
  - rewrite round_binary64_zero.
    + change (Qfloor (0 + (1 # 2))) with 0. lia.
    + unfold t. change (inject_Z 0) with 0%Q. unfold Qdiv. ring.
  - assert (Ht : (0 < t)%Q).
    { change 0%Q with (inject_Z 0). unfold t. rewrite <- Zlt_Qlt. lia. }
    assert (Hw : (0 < t / d)%Q) by (apply Qlt_shift_div_l; [assumption|lra]).
    destruct (round_binary64_err _ Hw) as [Q1 Q2].
    set (w := (t / d)%Q) in *.
    set (q := JS.round_binary64 w) in *.
    assert (Wd : (w * d == t)%Q).
    { unfold w. field. lra. }
    pose proof (Qfloor_le (q + (1 # 2))) as K1.
    pose proof (Qlt_floor (q + (1 # 2))) as K2.
    set (k := Qfloor (q + (1 # 2))) in *.
    rewrite inject_Z_plus in K2. change (inject_Z 1) with 1%Q in K2.
    unfold ulp_half in Q1, Q2.
    (* products *)
    assert (Z1 : (w * (l * (1 # 7) * (1 - (1 # 9007199254740992))) <= w * d)%Q).
    { apply Qmult_le_l; assumption. }
    assert (Z2 : (w * d <= w * (l * (1 # 7) * (1 + (1 # 9007199254740992))))%Q).
    { apply Qmult_le_l; assumption. }
    assert (G1 : (l * (w * (1 - (1 # 9007199254740992))) <= l * q)%Q).
    { apply Qmult_le_l; [lra|assumption]. }
    assert (G2 : (l * q <= l * (w * (1 + (1 # 9007199254740992))))%Q).
    { apply Qmult_le_l; [lra|assumption]. }
    assert (H1 : (l * inject_Z k <= l * (q + (1 # 2)))%Q).
    { apply Qmult_le_l; [lra|assumption]. }
    assert (H2 : (l * (q + (1 # 2)) < l * (inject_Z k + 1))%Q).
    { apply Qmult_lt_l; [lra|assumption]. }
    set (z := (w * l)%Q).
    set (g := (l * q)%Q) in *.
    set (h := (l * inject_Z k)%Q) in *.
    assert (Z1' : (z * (1 # 7) * (1 - (1 # 9007199254740992)) <= t)%Q).
    { rewrite <- Wd. unfold z. lra. }
    assert (Z2' : (t <= z * (1 # 7) * (1 + (1 # 9007199254740992)))%Q).
    { rewrite <- Wd. unfold z. lra. }
    assert (G1' : (z * (1 - (1 # 9007199254740992)) <= g)%Q) by (unfold z; lra).
    assert (G2' : (g <= z * (1 + (1 # 9007199254740992)))%Q) by (unfold z; lra).
    assert (H1' : (h <= g + (1 # 2) * l)%Q) by (unfold g; lra).
    assert (H2' : (g + (1 # 2) * l < h + l)%Q) by (unfold h, g; lra).
    assert (Eh : (2 * h == inject_Z (2 * L * k))%Q).
    { unfold h. rewrite !inject_Z_mult. fold l. change (inject_Z 2) with 2%Q. ring. }
    clearbody z g h. clear Z1 Z2 G1 G2 H1 H2.
    assert (Up : (2 * h < 14 * t + l + 1)%Q) by lra.
    assert (Lo : (14 * t - l - 1 < 2 * h)%Q) by lra.
    assert (Eu : (14 * t + l + 1 == inject_Z (14 * T + L + 1))%Q).
    { rewrite !inject_Z_plus, !inject_Z_mult. fold l t. reflexivity. }
    assert (El : (14 * t - l - 1 == inject_Z (14 * T - L - 1))%Q).
    { unfold Z.sub. rewrite !inject_Z_plus, !inject_Z_opp, !inject_Z_mult. fold l t.
      change (inject_Z 14) with 14%Q. change (inject_Z 1) with 1%Q. ring. }
    rewrite Eh, Eu in Up. rewrite Eh, El in Lo.
    rewrite <- Zlt_Qlt in Up, Lo. lia.
Qed.




(** The rounding model agrees with the standard library's specification of
    binary64 division on the quotients of all totals from 1 to 40 over all
    lengths from 1 to 40, and on large totals over the lengths of a year. *)
Example model_quotient_agrees_with_SpecFloat :
  forallb (fun len =>
             forallb (fun total =>
                        Qeq_bool (model_quotient total len)
                                 (reference_quotient total len))
                     (Z_range 1 40))
          (Z_range 1 40)
  && forallb (fun len =>
                forallb (fun total =>
                           Qeq_bool (model_quotient total len)
                                    (reference_quotient total len))
                        (Z_range 99990 12))
             (Z_range 355 17)
  = true.
Proof. vm_compute. reflexivity. Qed.

(** The binary64 quotient can fall just below a half-integer that the exact
    quotient hits: 9 contributions over 18 days average 3.5 exactly, the
    handler computes 3.4999999999999996 and answers 3. *)
Example average_per_day_tie :
  JS.Math_round (JS.Number_div (inject_Z 9) (JS.Number_div (inject_Z 18) (inject_Z 7)))
  = 3.
Proof. vm_compute. reflexivity. Qed.

(** ** Errors, and what a 200 answer holds *)

(** C9.  Every request gets a response (no exception escapes the handler).
    The response is an error body with status 400 or 500, or else status
    200 with a stats object every field of which is the aggregate of the
    fetched record: the filtered days, their longest streak, the total and
    its rank, the two peaks, the stars and the top languages; its month
    name is defined, and so is its weekday name when the weekdays are 0 to
    6.  When the upstream call is rejected, answers with a [null] user, or
    with a record no day of which passes the year filter, the response is
    an error with status 500. *)
Theorem failure_is_500_success_is_complete
    (engine_sort : JS.EngineSort)
    (legacy_parse : string -> option Z) (LocalTZA : Z -> Z)
    (octokit_graphql : string -> Exc Response)
    (request : Request) (calls : World) :
  exists response calls',
    GET engine_sort legacy_parse LocalTZA octokit_graphql request calls
      = (inr response, calls')
    /\ (is_error response 400 \/ is_error response 500
        \/ exists username userData stats day month,
             Answered octokit_graphql request username userData
             /\ contribution_days legacy_parse userData <> []
             /\ response = {| body := StatsBody stats; status := 200 |}
             /\ calls' = calls ++ [username]
             /\ stats.(calendarData) = contribution_days legacy_parse userData
             /\ stats.(longestStreak)
                = max_streak (contribution_days legacy_parse userData)
             /\ stats.(totalCommits)
                = userData.(contributionsCollection).(contributionCalendar)
                          .(totalContributions)
             /\ stats.(commitRank)
                = getCommitRank userData.(contributionsCollection)
                    .(contributionCalendar).(totalContributions)
             /\ stats.(starsEarned) = sum_stars userData.(repositories).(nodes)
             /\ stats.(topLanguages)
                = top_languages engine_sort userData.(repositories).(nodes)
             /\ peak_entry (dailyCommits (contribution_days legacy_parse userData))
                = Some day
             /\ peak_entry (monthlyCommits legacy_parse LocalTZA
                              (contribution_days legacy_parse userData))
                = Some month
             /\ stats.(mostActiveDay)
                = {| name := JS.Array_get WEEKDAY_NAMES (JS.parseInt (fst day));
                     commits := average_per_day (snd day)
                                  (contribution_days legacy_parse userData) |}
             /\ stats.(mostActiveMonth).(commits) = snd month
             /\ (exists monthName,
                   stats.(mostActiveMonth).(name) = Some monthName
                   /\ In monthName MONTH_NAMES)
             /\ ((forall d, In d (contribution_days legacy_parse userData) ->
                            0 <= d.(weekday) <= 6) ->
                 complete stats))
    /\ (forall username,
          URLSearchParams_get request.(searchParams) "username" = Some username ->
          username <> "" ->
          (exists e, octokit_graphql username = inl e)
          \/ octokit_graphql username = inr {| user := None |}
          \/ (exists userData,
                octokit_graphql username = inr {| user := Some userData |}
                /\ contribution_days legacy_parse userData = []) ->
          is_error response 500).
Proof.
  assert (H400 : is_error {| body := ErrorBody "Username parameter is required";
                             status := 400 |} 400).
  { split; [reflexivity|]. eexists. split; [reflexivity|discriminate]. }
  destruct (URLSearchParams_get request.(searchParams) "username")
    as [username|] eqn:Hu.
  2:{ eexists _, _. split; [apply missing_username_is_400_at; now left|].
      split; [now left|]. intros ? [=]. }
  destruct (String.eqb_spec username "") as [->|Hne].
  { eexists _, _. split; [apply missing_username_is_400_at; now right|].
    split; [now left|]. intros ? [= <-] H. now elim H. }
  destruct (octokit_graphql username) as [e|[[userData|]]] eqn:Hup.
  - (* the call is rejected *)
    destruct (GET_catch_is_500 e (calls ++ [username])) as (r & Hr & He).
    exists r, (calls ++ [username]). split.
    + unfold GET, try_catch, GET_try. rewrite Hu, (missing_false _ Hne).
      unfold bind, graphql. rewrite Hup. exact Hr.
    + split; [now right; left|]. intros; assumption.
  - (* a user record *)
    assert (Ha : Answered octokit_graphql request username userData)
      by (repeat split; assumption).
    rewrite (GET_answered engine_sort legacy_parse LocalTZA octokit_graphql
               request username userData calls Ha).
    set (days := contribution_days legacy_parse userData).
    assert (Hdec : days = [] \/ days <> [])
      by (destruct days; [now left|right; discriminate]).
    destruct Hdec as [Hnil|Hdays].
    + (* no day is left: the read of the first peak throws *)
      rewrite build_stats_empty by exact Hnil.
      destruct (GET_catch_is_500
                  {| message := "Cannot read properties of undefined (reading '0')" |}
                  (calls ++ [username])) as (r & Hr & He).
      exists r, (calls ++ [username]). split; [exact Hr|].
      split; [now right; left|]. intros; assumption.
    + destruct (build_stats_ok engine_sort legacy_parse LocalTZA userData
                  (calls ++ [username]) Hdays)
        as (day & month & Hd & Hm & Hb).
      fold days in Hd, Hm, Hb. rewrite Hb.
      eexists _, _. split; [reflexivity|]. split.
      * right; right. exists username, userData. eexists. exists day, month.
        split; [exact Ha|]. split; [exact Hdays|].
        split; [reflexivity|]. split; [reflexivity|].
        cbn [calendarData longestStreak totalCommits commitRank starsEarned
             topLanguages mostActiveDay mostActiveMonth name commits].
        split; [reflexivity|]. split; [reflexivity|]. split; [reflexivity|].
        split; [reflexivity|].
        split; [unfold totalStars; rewrite totalStars_from; lia|].
        split; [reflexivity|]. split; [exact Hd|]. split; [exact Hm|].
        split; [reflexivity|]. split; [reflexivity|].
        assert (Hmonth : exists monthName,
                   JS.Array_get MONTH_NAMES
                     (option_map (fun n => n - 1) (JS.parseInt (fst month)))
                   = Some monthName /\ In monthName MONTH_NAMES).
        { destruct (monthly_peak legacy_parse LocalTZA days Hdays
                      (contribution_days_valid legacy_parse userData))
            as (topMonth & HtM & HpM & _).
          rewrite HpM in Hm. injection Hm as <-. cbn [fst].
          pose proof (month_number_range legacy_parse LocalTZA topMonth
                        (contribution_days_valid legacy_parse userData topMonth HtM))
            as Rm.
          destruct (month_key_index _ Rm) as [_ ->]. cbn [option_map].
          destruct (nth_error MONTH_NAMES
                      (Z.to_nat (month_number legacy_parse LocalTZA topMonth - 1)))
            as [monthName|] eqn:En.
          2:{ apply nth_error_None in En. simpl in En. lia. }
          exists monthName. split; [|now apply nth_error_In in En].
          unfold JS.Array_get.
          destruct (Z.ltb_spec (month_number legacy_parse LocalTZA topMonth - 1) 0);
            [lia|assumption]. }
        split; [exact Hmonth|].
        intros Hwd. split; [|exact Hmonth].
        cbn [mostActiveDay name].
        destruct (daily_peak days Hdays Hwd) as (topDay & HtD & HpD & _).
        rewrite HpD in Hd. injection Hd as <-. cbn [fst].
        destruct (weekday_key_index _ (Hwd topDay HtD)) as [_ ->].
        specialize (Hwd topDay HtD).
        destruct (nth_error WEEKDAY_NAMES (Z.to_nat (weekday topDay)))
          as [dayName|] eqn:Ed.
        2:{ apply nth_error_None in Ed. simpl in Ed. lia. }
        exists dayName. split; [|now apply nth_error_In in Ed].
        unfold JS.Array_get.
        destruct (Z.ltb_spec (weekday topDay) 0); [lia|assumption].
      * intros u [= <-] _ [[e He]|[He|(ud & He & Hud)]];
          rewrite Hup in He; try discriminate.
        injection He as <-. contradiction.
  - (* a null user *)
    destruct (GET_catch_is_500
                {| message := "Cannot read properties of null (reading 'contributionsCollection')" |}
                (calls ++ [username])) as (r & Hr & He).
    exists r, (calls ++ [username]). split.
    + unfold GET, try_catch, GET_try. rewrite Hu, (missing_false _ Hne).
      unfold bind, graphql. rewrite Hup. exact Hr.
    + split; [now right; left|]. intros; assumption.
Qed.

Lemma failure_is_500_success_is_complete_witness :
  exists response calls',
    GET sample_sort no_legacy utc
        (upstream_of (user_of 12 [day_of 12 "not a date" 1] []))
        (request_for "octocat") [] = (inr response, calls')
    /\ is_error response 500.
Proof.
  destruct (failure_is_500_success_is_complete sample_sort no_legacy utc
              (upstream_of (user_of 12 [day_of 12 "not a date" 1] []))
              (request_for "octocat") []) as (r & c & H1 & _ & H3).
  exists r, c. split; [exact H1|].
  apply (H3 "octocat").
  - reflexivity.
  - discriminate.
  - right; right. eexists. split; reflexivity.
Defined.

(** C9, as stated, fails.  A record whose only day carries weekday 7 does
    not follow the schema, yet the handler answers with status 200, and the
    stats object has no [mostActiveDay.name]: [WEEKDAY_NAMES[7]] is
    [undefined], and the key is left out of the JSON body. *)
Lemma malformed_record_is_answered_200 :
  exists stats,
    GET sample_sort no_legacy utc (upstream_of malformed_user)
        (request_for "octocat") []
      = (inr {| body := StatsBody stats; status := 200 |}, ["octocat"])
    /\ stats.(mostActiveDay).(name) = None
    /\ stats.(mostActiveDay).(commits) = 7
    /\ stats.(mostActiveMonth).(name) = Some "January"
    /\ ~ complete stats
    /\ ~ is_error {| body := StatsBody stats; status := 200 |} 500.
Proof.
  eexists. split; [vm_compute; reflexivity|].
  split; [reflexivity|]. split; [reflexivity|]. split; [reflexivity|].
  split.
  - intros [(dayName & H & _) _]. discriminate H.
  - intros [H _]. discriminate H.
Qed.

(* ================================================================== *)
(** * Part V: further properties of the handler *)
(* ================================================================== *)

(** ** The month of a day, and the time zone *)

Lemma YearFromTime_unique (t y : Z) :
  JS.DayFromYear y <= JS.Day t < JS.DayFromYear (y + 1) -> JS.YearFromTime t = y.
Proof.
  intros [Hlo Hhi]. pose proof (YearFromTime_spec t) as [Slo Shi].
  destruct (Z.lt_trichotomy (JS.YearFromTime t) y) as [H|[H|H]]; trivial.
  - pose proof (DayFromYear_mono (JS.YearFromTime t + 1) y ltac:(lia)). lia.
  - pose proof (DayFromYear_mono (y + 1) (JS.YearFromTime t) ltac:(lia)). lia.
Qed.

(** [MonthFromTime] inverts [MakeDay]: a time value within day [d] of month
    [m] of year [y] is in month [m]. *)
Lemma MonthFromTime_MakeDay (t y m d : Z) :
  0 <= m <= 11 -> 1 <= d <= JS.days_in_month y m ->
  JS.Day t = JS.MakeDay y m d -> JS.MonthFromTime t = m.
Proof.
  intros Hm Hd Ht.
  pose proof (MakeDay_within_year y m d Hm Hd) as Hy. rewrite <- Ht in Hy.
  apply YearFromTime_unique in Hy.
  unfold JS.MonthFromTime, JS.DayWithinYear, JS.InLeapYear. rewrite Hy, Ht.
  unfold JS.MakeDay, JS.days_in_month in *. cbv zeta.
  destruct (DaysInYear_cases y) as [E|E]; rewrite E in *; cbn [Z.eqb Pos.eqb] in *;
    assert (Hc : m = 0 \/ m = 1 \/ m = 2 \/ m = 3 \/ m = 4 \/ m = 5 \/ m = 6
                 \/ m = 7 \/ m = 8 \/ m = 9 \/ m = 10 \/ m = 11) by lia;
    repeat (destruct Hc as [->|Hc]); try subst m; cbn [JS.month_start] in *;
    repeat match goal with
           | |- context [?a <? ?b] => destruct (Z.ltb_spec a b); try lia
           end.
Qed.

Lemma Day_of_midnight (day off : Z) :
  0 <= off < JS.msPerDay -> JS.Day (JS.MakeDate day 0 + off) = day.
Proof.
  unfold JS.Day, JS.MakeDate, JS.msPerDay. intros H.
  symmetry. apply (Z.div_unique _ _ _ off); lia.
Qed.

Lemma Day_before_midnight (day off : Z) :
  - JS.msPerDay <= off < 0 -> JS.Day (JS.MakeDate day 0 + off) = day - 1.
Proof.
  unfold JS.Day, JS.MakeDate, JS.msPerDay. intros H.
  symmetry. apply (Z.div_unique _ _ _ (off + 86400000)); lia.
Qed.

Lemma Date_of_iso legacy_parse (s : string) (y m d : Z) :
  JS.parse_iso_date s = Some (y, m, d) ->
  Date_of legacy_parse s = Some (JS.MakeDate (JS.MakeDay y (m - 1) d) 0).
Proof. intros H. unfold Date_of, JS.Date_parse. now rewrite H. Qed.

(** The day before the first of a month. *)
Lemma MakeDay_previous (y m : Z) :
  0 <= m <= 11 ->
  JS.MakeDay y m 1 - 1
  = if m =? 0 then JS.MakeDay (y - 1) 11 31
    else JS.MakeDay y (m - 1) (JS.days_in_month y (m - 1)).
Proof.
  intros Hm. destruct (Z.eqb_spec m 0) as [->|Hn].
  - unfold JS.MakeDay. cbn [JS.month_start].
    pose proof (DayFromYear_succ (y - 1)) as E.
    replace (y - 1 + 1) with y in E by lia. rewrite E.
    destruct (DaysInYear_cases (y - 1)) as [E'|E']; rewrite E';
      cbn [Z.eqb Pos.eqb]; lia.
  - unfold JS.MakeDay, JS.days_in_month.
    destruct (DaysInYear_cases y) as [E|E]; rewrite E; cbn [Z.eqb Pos.eqb];
      assert (Hc : m = 1 \/ m = 2 \/ m = 3 \/ m = 4 \/ m = 5 \/ m = 6
                   \/ m = 7 \/ m = 8 \/ m = 9 \/ m = 10 \/ m = 11) by lia;
      repeat (destruct Hc as [->|Hc]); try subst m; cbn; lia.
Qed.

Lemma days_in_month_range (y m : Z) : 28 <= JS.days_in_month y m <= 31.
Proof.
  unfold JS.days_in_month. cbv zeta.
  destruct (JS.DaysInYear y =? 366);
    (destruct m as [|p|p]; [lia| |lia]);
    do 4 (try (destruct p as [p|p|]; try lia)).
Qed.

(** X1.  In a time zone at or east of UTC (offset from 0 to less than 24
    hours), a day dated [YYYY-MM-DD] is tallied under its own month [MM]. *)
Theorem month_at_or_east_of_UTC
    (legacy_parse : string -> option Z) (LocalTZA : Z -> Z)
    (day : ContributionDay) (y m d : Z) :
  (forall t, 0 <= LocalTZA t < JS.msPerDay) ->
  JS.parse_iso_date day.(date) = Some (y, m, d) ->
  month_number legacy_parse LocalTZA day = m
  /\ monthKey legacy_parse LocalTZA day = month_key m.
Proof.
  intros Htz Hp.
  pose proof (parse_iso_date_range _ _ _ _ Hp) as (_ & Hm & Hd).
  assert (E : month_number legacy_parse LocalTZA day = m).
  { unfold month_number. rewrite (Date_of_iso legacy_parse _ _ _ _ Hp).
    cbn [JS.Date_getMonth option_map]. unfold JS.LocalTime.
    rewrite (MonthFromTime_MakeDay _ y (m - 1) d); [lia|lia|assumption|].
    apply Day_of_midnight, Htz. }
  split; [assumption|].
  rewrite monthKey_month_key, E; [reflexivity|].
  now rewrite (Date_of_iso legacy_parse _ _ _ _ Hp).
Qed.

Lemma month_at_or_east_of_UTC_witness :
  month_number no_legacy (fun _ => 19800000) (day_of 4 "2024-03-01" 5) = 3
  /\ monthKey no_legacy (fun _ => 19800000) (day_of 4 "2024-03-01" 5) = "03".
Proof.
  apply (month_at_or_east_of_UTC no_legacy (fun _ => 19800000)
           (day_of 4 "2024-03-01" 5) 2024 3 1).
  - intros t. unfold JS.msPerDay. lia.
  - reflexivity.
Defined.

(** X2.  In a time zone west of UTC (offset from -24 hours to less than 0),
    midnight UTC falls on the previous local day: the first day of a month
    is tallied under the month before it (January 1 under December), every
    other day under its own month. *)
Theorem month_west_of_UTC
    (legacy_parse : string -> option Z) (LocalTZA : Z -> Z)
    (day : ContributionDay) (y m d : Z) :
  (forall t, - JS.msPerDay <= LocalTZA t < 0) ->
  JS.parse_iso_date day.(date) = Some (y, m, d) ->
  month_number legacy_parse LocalTZA day
  = if d =? 1 then (if m =? 1 then 12 else m - 1) else m.
Proof.
  intros Htz Hp.
  pose proof (parse_iso_date_range _ _ _ _ Hp) as (_ & Hm & Hd).
  unfold month_number. rewrite (Date_of_iso legacy_parse _ _ _ _ Hp).
  cbn [JS.Date_getMonth option_map]. unfold JS.LocalTime.
  pose proof (Day_before_midnight (JS.MakeDay y (m - 1) d) _
                (Htz (JS.MakeDate (JS.MakeDay y (m - 1) d) 0))) as HD.
  destruct (Z.eqb_spec d 1) as [->|Hd1].
  - rewrite MakeDay_previous in HD by lia.
    destruct (Z.eqb_spec m 1) as [->|Hm1].
    + cbn [Z.sub Z.add Z.opp Z.pos_sub Z.eqb] in HD.
      rewrite (MonthFromTime_MakeDay _ (y - 1) 11 31); [lia|lia| |assumption].
      pose proof (days_in_month_range (y - 1) 11).
      unfold JS.days_in_month. cbv zeta. lia.
    + destruct (Z.eqb_spec (m - 1) 0) as [E|_]; [lia|].
      rewrite (MonthFromTime_MakeDay _ y (m - 1 - 1) (JS.days_in_month y (m - 1 - 1)));
        [lia|lia| |assumption].
      pose proof (days_in_month_range y (m - 1 - 1)). lia.
  - rewrite (MonthFromTime_MakeDay _ y (m - 1) (d - 1)); [lia|lia|lia|].
    rewrite HD. unfold JS.MakeDay. lia.
Qed.

Lemma month_west_of_UTC_witness :
  month_number no_legacy (fun _ => -18000000) (day_of 4 "2024-03-01" 5) = 2
  /\ month_number no_legacy (fun _ => -18000000) (day_of 4 "2024-01-01" 1) = 12.
Proof.
  split.
  - apply (month_west_of_UTC no_legacy (fun _ => -18000000)
             (day_of 4 "2024-03-01" 5) 2024 3 1).
    + intros t. unfold JS.msPerDay. lia.
    + reflexivity.
  - apply (month_west_of_UTC no_legacy (fun _ => -18000000)
             (day_of 4 "2024-01-01" 1) 2024 1 1).
    + intros t. unfold JS.msPerDay. lia.
    + reflexivity.
Defined.

(** ** What the tallies hold *)

Lemma existsb_key_In (key : ContributionDay -> string) (k : string)
    (days : list ContributionDay) :
  In k (map key days) <-> existsb (fun d => String.eqb (key d) k) days = true.
Proof.
  rewrite existsb_exists, in_map_iff.
  split; intros (d & H1 & H2); exists d.
  - split; [assumption|]. now apply String.eqb_eq.
  - split; [|assumption]. now apply String.eqb_eq.
Qed.

Lemma tally_lookup (key : ContributionDay -> string) (days : list ContributionDay)
    (k : string) :
  JS.obj_get (fold_left (tally key) days []) k
  = if existsb (fun d => String.eqb (key d) k) days
    then Some (total_of k (day_pairs key days)) else None.
Proof.
  rewrite tally_is_tally_pairs, tally_pairs_eq, obj_get_map, in_dec_distinct.
  assert (E : map fst (day_pairs key days) = map key days).
  { unfold day_pairs. rewrite map_map. reflexivity. }
  rewrite E.
  destruct (in_dec string_dec k (map key days)) as [H|H];
    destruct (existsb (fun d => String.eqb (key d) k) days) eqn:Ex; trivial.
  - apply existsb_key_In in H. congruence.
  - apply existsb_key_In in Ex. contradiction.
Qed.

(** X3.  After the weekday loop, [dailyCommits[w]] is the summed
    contribution count of the days whose weekday is [w], and is [undefined]
    when no day has that weekday. *)
Theorem dailyCommits_lookup (days : list ContributionDay) (w : Z) :
  JS.obj_get (dailyCommits days) (JS.Number_toString w)
  = if existsb (fun d => d.(weekday) =? w) days
    then Some (group_total weekday w days) else None.
Proof.
  unfold dailyCommits. rewrite tally_lookup.
  assert (E : existsb (fun d => String.eqb (dayKey d) (JS.Number_toString w)) days
              = existsb (fun d => d.(weekday) =? w) days).
  { induction days as [|d days IH]; [reflexivity|]. simpl. rewrite IH. f_equal.
    unfold dayKey. destruct (Z.eqb_spec (weekday d) w) as [->|Hn].
    - apply String.eqb_refl.
    - apply String.eqb_neq. intros H. now apply Number_toString_inj in H. }
  rewrite E. clear E. destruct (existsb _ days); [|reflexivity]. f_equal.
  apply (total_of_group weekday JS.Number_toString (fun _ => True)); auto.
  intros a b _ _. apply Number_toString_inj.
Qed.



(** ** The stats object *)

Lemma getCommitRank_rows (n : Z) :
  getCommitRank n = first_match rank_table "Bottom 30%" n.
Proof.
  unfold getCommitRank, first_match, rank_table. rewrite !Z.geb_leb. reflexivity.
Qed.

(** X5.  Whenever the handler answers with a stats object, [totalCommits]
    is the upstream [totalContributions], unchanged, whatever days the
    filter dropped, and [commitRank] is [getCommitRank] of that number. *)
Theorem totalCommits_passed_through
    (engine_sort : JS.EngineSort)
    (legacy_parse : string -> option Z) (LocalTZA : Z -> Z)
    (octokit_graphql : string -> Exc Response)
    (request : Request) (username : string) (userData : User) :
  Answered octokit_graphql request username userData ->
  contribution_days legacy_parse userData <> [] ->
  exists stats,
    GET engine_sort legacy_parse LocalTZA octokit_graphql request []
      = (inr {| body := StatsBody stats; status := 200 |}, [username])
    /\ stats.(totalCommits)
       = userData.(contributionsCollection).(contributionCalendar)
                 .(totalContributions)
    /\ stats.(commitRank)
       = first_match rank_table "Bottom 30%"
           userData.(contributionsCollection).(contributionCalendar)
                   .(totalContributions).
Proof.
  intros Ha Hne.
  destruct (build_stats_ok engine_sort legacy_parse LocalTZA userData ([] ++ [username]) Hne)
    as (day & month & _ & _ & Hb).
  eexists. split.
  { rewrite (GET_answered _ _ _ _ _ _ _ _ Ha), Hb. reflexivity. }
  cbn [totalCommits commitRank]. split; [reflexivity|].
  apply getCommitRank_rows.
Qed.

Lemma totalCommits_passed_through_witness :
  exists stats,
    GET sample_sort no_legacy utc (upstream_of sample_user) (request_for "octocat") []
      = (inr {| body := StatsBody stats; status := 200 |}, ["octocat"])
    /\ stats.(totalCommits) = 4999
    /\ stats.(commitRank) = "Top 1%-3%".
Proof.
  apply (totalCommits_passed_through sample_sort no_legacy utc (upstream_of sample_user)
           (request_for "octocat") "octocat" sample_user).
  - exact sample_answered.
  - vm_compute. discriminate.
Defined.

(** X6.  Whenever the handler answers with a stats object,
    [mostActiveMonth.name] is defined and is one of the twelve month names;
    when the weekdays are 0 to 6, [mostActiveDay.name] is defined and is one
    of the seven weekday names.  No field of the JSON body is dropped. *)
Theorem peak_names_defined
    (engine_sort : JS.EngineSort)
    (legacy_parse : string -> option Z) (LocalTZA : Z -> Z)
    (octokit_graphql : string -> Exc Response)
    (request : Request) (username : string) (userData : User) :
  Answered octokit_graphql request username userData ->
  contribution_days legacy_parse userData <> [] ->
  exists stats monthName,
    GET engine_sort legacy_parse LocalTZA octokit_graphql request []
      = (inr {| body := StatsBody stats; status := 200 |}, [username])
    /\ stats.(mostActiveMonth).(name) = Some monthName
    /\ In monthName MONTH_NAMES
    /\ ((forall d, In d (contribution_days legacy_parse userData) ->
                   0 <= d.(weekday) <= 6) ->
        exists dayName,
          stats.(mostActiveDay).(name) = Some dayName
          /\ In dayName WEEKDAY_NAMES).
Proof.
  intros Ha Hne.
  set (days := contribution_days legacy_parse userData) in *.
  destruct (build_stats_ok engine_sort legacy_parse LocalTZA userData ([] ++ [username]) Hne)
    as (day & month & Hd & Hm & Hb).
  fold days in Hd, Hm, Hb.
  destruct (monthly_peak legacy_parse LocalTZA days Hne
              (contribution_days_valid legacy_parse userData))
    as (topMonth & HtM & HpM & _).
  rewrite HpM in Hm. injection Hm as <-.
  pose proof (month_number_range legacy_parse LocalTZA topMonth
                (contribution_days_valid legacy_parse userData topMonth HtM)) as Rm.
  destruct (nth_error MONTH_NAMES
              (Z.to_nat (month_number legacy_parse LocalTZA topMonth - 1)))
    as [monthName|] eqn:En.
  2:{ apply nth_error_None in En. simpl in En. lia. }
  eexists _, monthName. split.
  { rewrite (GET_answered _ _ _ _ _ _ _ _ Ha), Hb. reflexivity. }
  cbn [mostActiveDay mostActiveMonth name fst].
  destruct (month_key_index _ Rm) as [_ ->]. cbn [option_map].
  split; [|split].
  - unfold JS.Array_get.
    destruct (Z.ltb_spec (month_number legacy_parse LocalTZA topMonth - 1) 0);
      [lia|assumption].
  - now apply nth_error_In in En.
  - intros Hwd.
    destruct (daily_peak days Hne Hwd) as (topDay & HtD & HpD & _).
    rewrite HpD in Hd. injection Hd as <-. cbn [fst].
    destruct (weekday_key_index _ (Hwd topDay HtD)) as [_ ->].
    specialize (Hwd topDay HtD).
    destruct (nth_error WEEKDAY_NAMES (Z.to_nat (weekday topDay)))
      as [dayName|] eqn:Ed.
    2:{ apply nth_error_None in Ed. simpl in Ed. lia. }
    exists dayName. split.
    + unfold JS.Array_get. destruct (Z.ltb_spec (weekday topDay) 0); [lia|assumption].
    + now apply nth_error_In in Ed.
Qed.

Lemma peak_names_defined_witness :
  exists stats,
    GET sample_sort no_legacy utc (upstream_of sample_user) (request_for "octocat") []
      = (inr {| body := StatsBody stats; status := 200 |}, ["octocat"])
    /\ stats.(mostActiveMonth).(name) = Some "January"
    /\ stats.(mostActiveDay).(name) = Some "Monday".
Proof.
  destruct (peak_names_defined sample_sort no_legacy utc (upstream_of sample_user)
              (request_for "octocat") "octocat" sample_user)
    as (stats & monthName & Hg & _).
  - exact sample_answered.
  - vm_compute. discriminate.
  - exists stats. split; [exact Hg|].
    vm_compute in Hg. injection Hg as <-. split; reflexivity.
Defined.

(** ** Errors and the upstream call *)

(** X7.  When the upstream call is rejected, the answer is status 500 with
    the rejection's message, or "Failed to fetch GitHub statistics" when
    that message is empty. *)
Theorem rejection_message_is_reported
    (engine_sort : JS.EngineSort)
    (legacy_parse : string -> option Z) (LocalTZA : Z -> Z)
    (octokit_graphql : string -> Exc Response)
    (request : Request) (username : string) (e : JsError) (calls : World) :
  URLSearchParams_get request.(searchParams) "username" = Some username ->
  username <> "" ->
  octokit_graphql username = inl e ->
  GET engine_sort legacy_parse LocalTZA octokit_graphql request calls
  = (inr {| body := ErrorBody (if String.eqb e.(message) ""
                               then "Failed to fetch GitHub statistics"
                               else e.(message));
            status := 500 |},
     calls ++ [username]).
Proof.
  intros Hu Hne Hup.
  unfold GET, try_catch, GET_try. rewrite Hu, (missing_false _ Hne).
  unfold bind, graphql. rewrite Hup. reflexivity.
Qed.

Lemma rejection_message_is_reported_witness :
  GET sample_sort no_legacy utc (fun _ => inl {| message := "Bad credentials" |})
      (request_for "octocat") []
  = (inr {| body := ErrorBody "Bad credentials"; status := 500 |}, ["octocat"]).
Proof.
  apply (rejection_message_is_reported sample_sort no_legacy utc
           (fun _ => inl {| message := "Bad credentials" |})
           (request_for "octocat") "octocat" {| message := "Bad credentials" |} []).
  - reflexivity.
  - discriminate.
  - reflexivity.
Defined.

(** X8.  A request makes at most one upstream call: none when the username
    is missing or empty, otherwise exactly one, for the first [username]
    parameter of the query, whatever the upstream answers. *)
Theorem at_most_one_upstream_call
    (engine_sort : JS.EngineSort)
    (legacy_parse : string -> option Z) (LocalTZA : Z -> Z)
    (octokit_graphql : string -> Exc Response)
    (request : Request) (calls : World) :
  snd (GET engine_sort legacy_parse LocalTZA octokit_graphql request calls)
  = match URLSearchParams_get request.(searchParams) "username" with
    | Some username => if String.eqb username "" then calls else calls ++ [username]
    | None => calls
    end.
Proof.
  destruct (URLSearchParams_get request.(searchParams) "username")
    as [username|] eqn:Hu.
  2:{ rewrite missing_username_is_400_at by now left. reflexivity. }
  destruct (String.eqb_spec username "") as [->|Hne].
  { rewrite missing_username_is_400_at by now right. reflexivity. }
  unfold GET, try_catch, GET_try. rewrite Hu, (missing_false _ Hne).
  unfold bind, graphql.
  destruct (octokit_graphql username) as [e|[[userData|]]]; try reflexivity.
  cbn [user read_null ret].
  destruct (contribution_days legacy_parse userData) eqn:Ed.
  - rewrite build_stats_empty by assumption. reflexivity.
  - destruct (build_stats_ok engine_sort legacy_parse LocalTZA userData (calls ++ [username]))
      as (day & month & _ & _ & ->); [congruence|reflexivity].
Qed.

(** ** The filter *)

(** X9.  Every day of [calendarData] has a date that parses, to a time value
    at or after midnight UTC of January 1, 2024: a day whose date does not
    parse is dropped with the days before the boundary. *)
Theorem calendarData_dates_are_valid
    (engine_sort : JS.EngineSort)
    (legacy_parse : string -> option Z) (LocalTZA : Z -> Z)
    (octokit_graphql : string -> Exc Response)
    (request : Request) (username : string) (userData : User) :
  Answered octokit_graphql request username userData ->
  contribution_days legacy_parse userData <> [] ->
  exists stats,
    GET engine_sort legacy_parse LocalTZA octokit_graphql request []
      = (inr {| body := StatsBody stats; status := 200 |}, [username])
    /\ (forall day, In day stats.(calendarData) ->
          In day (all_days userData)
          /\ exists t, JS.Date_parse legacy_parse day.(date) = Some t
                       /\ 1704067200000 <= t)
    /\ (forall day, In day (all_days userData) ->
          JS.Date_parse legacy_parse day.(date) = None ->
          ~ In day stats.(calendarData)).
Proof.
  intros Ha Hne.
  destruct (build_stats_ok engine_sort legacy_parse LocalTZA userData ([] ++ [username]) Hne)
    as (day & month & _ & _ & Hb).
  eexists. split.
  { rewrite (GET_answered _ _ _ _ _ _ _ _ Ha), Hb. reflexivity. }
  cbn [calendarData].
  assert (Hk : forall d, In d (contribution_days legacy_parse userData) ->
               In d (all_days userData)
               /\ exists t, JS.Date_parse legacy_parse d.(date) = Some t
                            /\ 1704067200000 <= t).
  { intros d Hd. unfold contribution_days in Hd.
    apply filter_In in Hd as [Hin Hge]. split; [exact Hin|].
    unfold Date_of in Hge.
    replace (JS.Date_parse legacy_parse "2024-01-01") with (Some 1704067200000) in Hge
      by (vm_compute; reflexivity).
    destruct (JS.Date_parse legacy_parse d.(date)) as [t|]; [|discriminate].
    exists t. split; [reflexivity|]. now apply Z.leb_le. }
  split; [exact Hk|].
  intros d _ Hnone Hin. destruct (Hk d Hin) as (_ & t & Ht & _). congruence.
Qed.

Lemma calendarData_dates_are_valid_witness :
  exists stats,
    GET sample_sort no_legacy utc
        (upstream_of (user_of 3 [day_of 1 "yesterday" 2; day_of 2 "2024-05-06" 1] []))
        (request_for "octocat") []
      = (inr {| body := StatsBody stats; status := 200 |}, ["octocat"])
    /\ stats.(calendarData) = [day_of 2 "2024-05-06" 1].
Proof.
  destruct (calendarData_dates_are_valid sample_sort no_legacy utc
              (upstream_of (user_of 3 [day_of 1 "yesterday" 2; day_of 2 "2024-05-06" 1] []))
              (request_for "octocat") "octocat"
              (user_of 3 [day_of 1 "yesterday" 2; day_of 2 "2024-05-06" 1] []))
    as (stats & Hg & _).
  - repeat split. discriminate.
  - vm_compute. discriminate.
  - exists stats. split; [exact Hg|].
    vm_compute in Hg. injection Hg as <-. reflexivity.
Defined.

(** X10.  The days that the filter drops have no influence: two upstream
    records with the same days from the boundary on, the same repositories
    and the same total get the same response. *)
Theorem dropped_days_do_not_matter
    (engine_sort : JS.EngineSort)
    (legacy_parse : string -> option Z) (LocalTZA : Z -> Z)
    (upstream1 upstream2 : string -> Exc Response)
    (request : Request) (username : string) (user1 user2 : User) (calls : World) :
  Answered upstream1 request username user1 ->
  Answered upstream2 request username user2 ->
  contribution_days legacy_parse user1 = contribution_days legacy_parse user2 ->
  user1.(repositories) = user2.(repositories) ->
  user1.(contributionsCollection).(contributionCalendar).(totalContributions)
  = user2.(contributionsCollection).(contributionCalendar).(totalContributions) ->
  GET engine_sort legacy_parse LocalTZA upstream1 request calls
  = GET engine_sort legacy_parse LocalTZA upstream2 request calls.
Proof.
  intros H1 H2 Hd Hr Ht.
  rewrite (GET_answered _ _ _ _ _ _ _ _ H1), (GET_answered _ _ _ _ _ _ _ _ H2).
  unfold build_stats. rewrite Hd, Hr, Ht. reflexivity.
Qed.

Lemma dropped_days_do_not_matter_witness :
  GET sample_sort no_legacy utc (upstream_of sample_user) (request_for "octocat") []
  = GET sample_sort no_legacy utc
        (upstream_of (user_of 4999 (day_of 40 "2023-11-05" 0 :: sample_days)
                        sample_repos))
        (request_for "octocat") [].
Proof.
  apply (dropped_days_do_not_matter sample_sort no_legacy utc (upstream_of sample_user)
           (upstream_of (user_of 4999 (day_of 40 "2023-11-05" 0 :: sample_days)
                           sample_repos))
           (request_for "octocat") "octocat" sample_user
           (user_of 4999 (day_of 40 "2023-11-05" 0 :: sample_days) sample_repos) []).
  - exact sample_answered.
  - repeat split. discriminate.
  - vm_compute. reflexivity.
  - reflexivity.
  - reflexivity.
Defined.

(** ** Top languages, whatever the array-index names *)

Lemma NoDup_firstn {A} (n : nat) (l : list A) : NoDup l -> NoDup (firstn n l).
Proof.
  revert l. induction n as [|n IH]; intros [|a l] H; simpl; try constructor.
  - apply NoDup_cons_iff in H as [Ha _]. intros Hin. apply Ha.
    now apply In_firstn in Hin.
  - apply IH. now apply NoDup_cons_iff in H.
Qed.

Lemma sorted_language_entries engine_sort (repos : list Repository) :
  plain_names (language_names repos) ->
  exists ranked,
    top_languages engine_sort repos = firstn 3 ranked
    /\ Permutation ranked (distinct (language_names repos))
    /\ StronglySorted
         (fun a b => language_count (language_names repos) b
                     <= language_count (language_names repos) a)
         ranked.
Proof.
  intros Hp. destruct (language_ranking repos) as [Hperm Hs].
  eexists. split; [apply (top_languages_plain engine_sort repos Hp)|].
  split; [exact Hperm|].
  eapply StronglySorted_weaken; [|exact Hs].
  intros a b [H|[H _]]; lia.
Qed.

(** X11.  When no language is named like a property of [Object.prototype],
    [topLanguages] never repeats a name, and holds three names unless the
    repositories have fewer than three distinct primary languages, in which
    case it holds them all. *)
Theorem topLanguages_distinct (engine_sort : JS.EngineSort)
    (repos : list Repository) :
  plain_names (language_names repos) ->
  NoDup (top_languages engine_sort repos)
  /\ List.length (top_languages engine_sort repos)
     = Nat.min 3 (List.length (distinct (language_names repos))).
Proof.
  intros Hplain.
  destruct (sorted_language_entries engine_sort repos Hplain) as (ranked & Et & Hp & _).
  rewrite Et. split.
  - apply NoDup_firstn. apply (Permutation_NoDup (Permutation_sym Hp)).
    apply distinct_NoDup.
  - rewrite length_firstn. now rewrite (Permutation_length Hp).
Qed.

Lemma topLanguages_distinct_witness :
  NoDup (top_languages sample_sort sample_repos)
  /\ List.length (top_languages sample_sort sample_repos) = 3%nat.
Proof.
  apply (topLanguages_distinct sample_sort sample_repos).
  exact sample_repos_plain.
Defined.

Lemma StronglySorted_firstn_skipn {A} (R : A -> A -> Prop) (n : nat) (l : list A)
    (a b : A) :
  StronglySorted R l -> In a (firstn n l) -> In b (skipn n l) -> R a b.
Proof.
  revert l. induction n as [|n IH]; intros [|x l] Hs Ha Hb; simpl in *; try tauto.
  apply StronglySorted_inv in Hs as [Hs Hf]. destruct Ha as [<-|Ha].
  - rewrite Forall_forall in Hf. apply Hf.
    rewrite <- (firstn_skipn n l). apply in_or_app. now right.
  - now apply (IH l).
Qed.

(** X12.  When no language is named like a property of [Object.prototype],
    and whether or not a name is an array index, [topLanguages] is ordered by
    non-increasing repository count, and no language left out has more
    repositories than a language listed. *)
Theorem topLanguages_are_the_most_used (engine_sort : JS.EngineSort)
    (repos : list Repository) :
  plain_names (language_names repos) ->
  StronglySorted
    (fun a b => language_count (language_names repos) b
                <= language_count (language_names repos) a)
    (top_languages engine_sort repos)
  /\ forall a b,
       In a (top_languages engine_sort repos) ->
       In b (language_names repos) -> ~ In b (top_languages engine_sort repos) ->
       language_count (language_names repos) b
       <= language_count (language_names repos) a.
Proof.
  intros Hplain.
  destruct (sorted_language_entries engine_sort repos Hplain) as (ranked & Et & Hp & Hs).
  rewrite Et. split.
  - rewrite <- (firstn_skipn 3 ranked) in Hs.
    clear -Hs. induction (firstn 3 ranked) as [|x l IH]; [constructor|].
    simpl in Hs. apply StronglySorted_inv in Hs as [Hs Hf]. constructor.
    + now apply IH.
    + apply Forall_app in Hf. tauto.
  - intros a b Ha Hb Hnb.
    apply (StronglySorted_firstn_skipn _ 3 ranked a b Hs Ha).
    assert (Hin : In b ranked).
    { apply (Permutation_in _ (Permutation_sym Hp)). now apply distinct_In. }
    rewrite <- (firstn_skipn 3 ranked) in Hin.
    apply in_app_or in Hin as [Hin|Hin]; [contradiction|assumption].
Qed.

Lemma topLanguages_are_the_most_used_witness :
  language_count
    (language_names (sample_repos ++ [repo_of 0 "7"; repo_of 9 "7"; repo_of 1 "E"])) "E"
  <= language_count
       (language_names (sample_repos ++ [repo_of 0 "7"; repo_of 9 "7"; repo_of 1 "E"])) "A".
Proof.
  apply (topLanguages_are_the_most_used sample_sort
           (sample_repos ++ [repo_of 0 "7"; repo_of 9 "7"; repo_of 1 "E"])).
  - intros n Hn. simpl in Hn.
    repeat (destruct Hn as [<-|Hn]; [reflexivity|]). destruct Hn.
  - vm_compute. auto.
  - vm_compute. auto 10.
  - vm_compute. intros [H|[H|[H|[]]]]; discriminate H.
Defined.

(** ** The streak loop *)

(** X13.  The longest streak is between 0 and the number of days, is 0
    exactly when no day has a positive count, and never decreases when more
    days are appended. *)
Theorem max_streak_bounds (days more : list ContributionDay) :
  0 <= max_streak days <= Z.of_nat (List.length days)
  /\ (max_streak days = 0 <-> forall d, In d days -> d.(contributionCount) <= 0)
  /\ max_streak days <= max_streak (days ++ more).
Proof.
  destruct (max_streak_spec days) as (H0 & Hr & Hmax).
  split; [|split].
  - apply is_run_length in Hr. lia.
  - split.
    + intros Hz d Hd.
      destruct (Z.le_gt_cases (contributionCount d) 0) as [|Hpos]; [assumption|].
      apply in_split in Hd as (l1 & l2 & ->).
      assert (Hone : is_run (l1 ++ d :: l2) 1).
      { exists l1, [d], l2. split; [reflexivity|]. split; [reflexivity|].
        constructor; [unfold active; lia|constructor]. }
      apply Hmax in Hone. lia.
    + intros Hnone. destruct Hr as (before & run & after & He & Hl & Ha).
      destruct run as [|x run]; [simpl in Hl; lia|].
      inversion Ha as [|? ? Hx _]; subst. unfold active in Hx.
      specialize (Hnone x). rewrite in_app_iff in Hnone. simpl in Hnone.
      assert (contributionCount x <= 0) by (apply Hnone; right; now left). lia.
  - destruct (max_streak_spec (days ++ more)) as (_ & _ & Hmax').
    destruct Hr as (before & run & after & He & Hl & Ha).
    assert (Hrun : is_run (days ++ more) (Z.to_nat (max_streak days))).
    { exists before, run, (after ++ more).
      split; [rewrite He, <- !app_assoc; reflexivity|]. now split. }
    apply Hmax' in Hrun. lia.
Qed.

Lemma max_streak_bounds_witness :
  max_streak [day_of 0 "2024-01-01" 1; day_of (-2) "2024-01-02" 2] = 0.
Proof.
  apply (max_streak_bounds [day_of 0 "2024-01-01" 1; day_of (-2) "2024-01-02" 2] []).
  intros d [<-|[<-|[]]]; simpl; lia.
Defined.

(** ** The commit rank *)

(** X14.  [getCommitRank] is monotone: a larger total never gets a lower
    tier, the tiers running from "Bottom 30%" up to "Top 0.5%-1%". *)
Theorem getCommitRank_monotone (n m : Z) :
  n <= m ->
  exists i j,
    tier_of (getCommitRank n) = Some i
    /\ tier_of (getCommitRank m) = Some j
    /\ 0 <= i <= j /\ j <= 6.
Proof.
  intros Hnm. unfold getCommitRank. rewrite !Z.geb_leb.
  repeat match goal with
         | |- context [?a <=? n] => destruct (Z.leb_spec a n); cbv beta iota
         end;
    repeat match goal with
           | |- context [?a <=? m] =>
               destruct (Z.leb_spec a m); cbv beta iota; try lia
           end;
    eexists _, _; (split; [reflexivity|]); (split; [reflexivity|]); lia.
Qed.

Lemma getCommitRank_monotone_witness :
  exists i j,
    tier_of (getCommitRank 49) = Some i /\ tier_of (getCommitRank 50) = Some j
    /\ 0 <= i <= j /\ j <= 6.
Proof. apply (getCommitRank_monotone 49 50). lia. Defined.

(** ** A calendar without contributions *)

Lemma group_total_zero (f : ContributionDay -> Z) (v : Z)
    (days : list ContributionDay) :
  (forall d, In d days -> d.(contributionCount) = 0) -> group_total f v days = 0.
Proof.
  induction days as [|d days IH]; intros H; simpl; [reflexivity|].
  rewrite IH by (intros; apply H; now right).
  rewrite (H d) by now left. destruct (f d =? v); reflexivity.
Qed.

Lemma average_per_day_zero (days : list ContributionDay) :
  days <> [] -> average_per_day 0 days = 0.
Proof.
  intros Hne. unfold average_per_day, JS.Number_div.
  rewrite (round_binary64_zero (inject_Z 0 / _)).
  - reflexivity.
  - change (inject_Z 0) with 0%Q. unfold Qdiv. ring.
Qed.

(** X15.  When the days from the boundary on hold no contribution at all,
    the handler still answers with a stats object, in which the streak and
    the commits of both peaks are 0. *)
Theorem empty_year_gives_zero_peaks
    (engine_sort : JS.EngineSort)
    (legacy_parse : string -> option Z) (LocalTZA : Z -> Z)
    (octokit_graphql : string -> Exc Response)
    (request : Request) (username : string) (userData : User) :
  Answered octokit_graphql request username userData ->
  contribution_days legacy_parse userData <> [] ->
  (forall d, In d (contribution_days legacy_parse userData) ->
             d.(contributionCount) = 0) ->
  exists stats,
    GET engine_sort legacy_parse LocalTZA octokit_graphql request []
      = (inr {| body := StatsBody stats; status := 200 |}, [username])
    /\ stats.(longestStreak) = 0
    /\ stats.(mostActiveDay).(commits) = 0
    /\ stats.(mostActiveMonth).(commits) = 0.
Proof.
  intros Ha Hne Hz.
  set (days := contribution_days legacy_parse userData) in *.
  destruct (build_stats_ok engine_sort legacy_parse LocalTZA userData ([] ++ [username]) Hne)
    as (day & month & Hd & Hm & Hb).
  fold days in Hd, Hm, Hb.
  destruct (group_peak weekday JS.Number_toString (fun _ => True)
              (fun a b _ _ => Number_toString_inj a b) days (fun _ _ => I) Hne)
    as (topDay & _ & HpD & _).
  change (fold_left (tally (fun d => JS.Number_toString (weekday d))) days [])
    with (dailyCommits days) in HpD.
  destruct (monthly_peak legacy_parse LocalTZA days Hne
              (contribution_days_valid legacy_parse userData))
    as (topMonth & _ & HpM & _).
  rewrite HpD in Hd. injection Hd as <-.
  rewrite HpM in Hm. injection Hm as <-.
  eexists. split.
  { rewrite (GET_answered _ _ _ _ _ _ _ _ Ha), Hb. reflexivity. }
  cbn [longestStreak mostActiveDay mostActiveMonth commits snd].
  rewrite !group_total_zero by assumption.
  split; [now apply max_streak_all_zero|].
  split; [now apply average_per_day_zero|reflexivity].
Qed.

Lemma empty_year_gives_zero_peaks_witness :
  exists stats,
    GET sample_sort no_legacy utc
        (upstream_of (user_of 0 [day_of 0 "2024-01-01" 1; day_of 0 "2024-01-02" 2] []))
        (request_for "octocat") []
      = (inr {| body := StatsBody stats; status := 200 |}, ["octocat"])
    /\ stats.(longestStreak) = 0
    /\ stats.(mostActiveDay).(commits) = 0
    /\ stats.(mostActiveMonth).(commits) = 0.
Proof.
  apply (empty_year_gives_zero_peaks sample_sort no_legacy utc
           (upstream_of (user_of 0 [day_of 0 "2024-01-01" 1; day_of 0 "2024-01-02" 2] []))
           (request_for "octocat") "octocat"
           (user_of 0 [day_of 0 "2024-01-01" 1; day_of 0 "2024-01-02" 2] [])).
  - repeat split. discriminate.
  - vm_compute. discriminate.
  - intros d Hd. vm_compute in Hd. destruct Hd as [<-|[<-|[]]]; reflexivity.
Defined.

(** ** The page and the handler together *)

Lemma GET_response_kinds
    (engine_sort : JS.EngineSort)
    (legacy_parse : string -> option Z) (LocalTZA : Z -> Z)
    (octokit_graphql : string -> Exc Response)
    (request : Request) (calls : World) :
  exists response calls',
    GET engine_sort legacy_parse LocalTZA octokit_graphql request calls = (inr response, calls')
    /\ (is_stats response \/ is_error response 400 \/ is_error response 500).
Proof.
  assert (H400 : is_error {| body := ErrorBody "Username parameter is required";
                             status := 400 |} 400).
  { split; [reflexivity|]. eexists. split; [reflexivity|discriminate]. }
  destruct (URLSearchParams_get request.(searchParams) "username") as [username|] eqn:Hu.
  2:{ eexists _, _. split; [apply missing_username_is_400_at; now left|auto]. }
  destruct (String.eqb_spec username "") as [->|Hne].
  { eexists _, _. split; [apply missing_username_is_400_at; now right|auto]. }
  unfold GET, try_catch, GET_try. rewrite Hu, (missing_false _ Hne).
  unfold bind, graphql.
  destruct (octokit_graphql username) as [e|[[userData|]]].
  - destruct (GET_catch_is_500 e (calls ++ [username])) as (r & -> & He). eauto 6.
  - cbn [user read_null ret].
    destruct (build_stats engine_sort legacy_parse LocalTZA userData (calls ++ [username]))
      as [[e|stats] w'].
    + destruct (GET_catch_is_500 e w') as (r & -> & He). eauto 6.
    + eexists _, _. split; [reflexivity|]. left. split; [reflexivity|]. now eexists.
  - cbn [user read_null TypeError throw].
    match goal with
    | |- context [GET_catch ?e ?w] => destruct (GET_catch_is_500 e w) as (r & -> & He)
    end.
    eauto 6.
Qed.

(** X16.  When the page's [fetch] is served by the handler, [handleSubmit]
    ends with [loading] off and either the stats of a 200 response on
    display and no error, or no stats and the handler's own error message,
    which is never empty, on display. *)
Theorem page_shows_stats_or_error
    (engine_sort : JS.EngineSort)
    (legacy_parse : string -> option Z) (LocalTZA : Z -> Z)
    (octokit_graphql : string -> Exc Response)
    (request : Request) (s : Page.State) :
  exists response calls,
    GET engine_sort legacy_parse LocalTZA octokit_graphql request [] = (inr response, calls)
    /\ Page.loading (Page.handleSubmit (Page.Fetched response) s) = false
    /\ Page.username (Page.handleSubmit (Page.Fetched response) s) = Page.username s
    /\ Page.handleSubmit
         (Page.outcome_of (GET engine_sort legacy_parse LocalTZA octokit_graphql request [])) s
       = Page.handleSubmit (Page.Fetched response) s
    /\ ((response.(status) = 200
         /\ Page.stats (Page.handleSubmit (Page.Fetched response) s)
            = Some response.(body)
         /\ (exists stats, response.(body) = StatsBody stats)
         /\ Page.error (Page.handleSubmit (Page.Fetched response) s) = "")
        \/ ((response.(status) = 400 \/ response.(status) = 500)
            /\ Page.stats (Page.handleSubmit (Page.Fetched response) s) = None
            /\ response.(body)
               = ErrorBody (Page.error (Page.handleSubmit (Page.Fetched response) s))
            /\ Page.error (Page.handleSubmit (Page.Fetched response) s) <> "")).
Proof.
  destruct (GET_response_kinds engine_sort legacy_parse LocalTZA octokit_graphql request [])
    as (response & calls & Hg & Hk).
  exists response, calls. split; [exact Hg|].
  split; [reflexivity|]. split; [reflexivity|].
  split; [now rewrite Hg|].
  destruct response as [b st].
  destruct Hk as [[Hs (stats & Hb)]|[[Hs (msg & Hb & Hm)]|[Hs (msg & Hb & Hm)]]];
    cbn [status body] in *; subst.
  - left. repeat split. now exists stats.
  - right. unfold Page.handleSubmit, Page.ok. cbn.
    apply String.eqb_neq in Hm. rewrite Hm. apply String.eqb_neq in Hm. auto.
  - right. unfold Page.handleSubmit, Page.ok. cbn.
    apply String.eqb_neq in Hm. rewrite Hm. apply String.eqb_neq in Hm. auto.
Qed.

(** ** The average per day, exactly *)

(** X17.  For a total from 0 to less than 2^48 over a non-empty list of
    [n] days, the "average per day" is the exact quotient [7 * total / n]
    rounded to the nearest integer, halves up, unless that quotient is
    exactly halfway between two integers (where the binary64 quotient may
    fall on either side of the half). *)
Theorem average_per_day_exact (total : Z) (days : list ContributionDay) :
  0 <= total < 2 ^ 48 ->
  days <> [] ->
  (14 * total + Z.of_nat (List.length days))
    mod (2 * Z.of_nat (List.length days)) <> 0 ->
  average_per_day total days
  = (14 * total + Z.of_nat (List.length days)) / (2 * Z.of_nat (List.length days)).
Proof.
  intros Ht Hne Hr.
  assert (HL : 1 <= Z.of_nat (List.length days)).
  { destruct days; [congruence|]. simpl List.length. lia. }
  pose proof (Math_round_div_nearest total (Z.of_nat (List.length days)) Ht HL) as Hn.
  fold (average_per_day total days) in Hn.
  set (L := Z.of_nat (List.length days)) in *.
  set (k := average_per_day total days) in *.
  pose proof (Z.div_mod (14 * total + L) (2 * L) ltac:(lia)) as Hdm.
  pose proof (Z.mod_pos_bound (14 * total + L) (2 * L) ltac:(lia)) as Hb.
  set (q := (14 * total + L) / (2 * L)) in *.
  set (r := (14 * total + L) mod (2 * L)) in *.
  assert (k <= q) by nia.
  assert (q <= k) by nia.
  lia.
Qed.

Lemma average_per_day_exact_witness :
  average_per_day 5 [day_of 5 "2024-01-01" 1; day_of 3 "2024-01-02" 2;
                     day_of 0 "2024-01-03" 3; day_of 2 "2024-01-04" 4] = 9.
Proof.
  apply (average_per_day_exact 5
           [day_of 5 "2024-01-01" 1; day_of 3 "2024-01-02" 2;
            day_of 0 "2024-01-03" 3; day_of 2 "2024-01-04" 4]).
  - lia.
  - discriminate.
  - vm_compute. discriminate.
Defined.
